(** * DNS-01 challenge of lego: [challenge/dns01/dns_challenge.go]

    A shallow embedding of the dns-01 challenge lifecycle (PreSolve, Solve,
    CleanUp, Sequential), of the record derivation (GetChallengeInfo,
    GetRecord) and of the CNAME walk (getChallengeFQDN), together with the
    two Go standard-library routines the record value is built from
    (crypto/sha256 and encoding/base64). *)

From Stdlib Require Import ZArith List String Ascii Bool Lia.
Import ListNotations.

Local Open Scope Z_scope.

(** ** Go strings as byte sequences *)

(** A Go [string] is a sequence of bytes; [[]byte(s)] lists them.  A byte is
    kept as a [Z] in [0, 256). *)
Fixpoint bytes_of_string (s : string) : list Z :=
  match s with
  | EmptyString => []
  | String c rest => Z.of_N (N_of_ascii c) :: bytes_of_string rest
  end.

(** ** crypto/sha256 *)

Module Sha256.

(** [sha256.Size]: the size of a checksum in bytes. *)
Definition Size : nat := 32.

(** [chunk]: the block size in bytes. *)
Definition chunk : nat := 64.

Definition wrap32 (x : Z) : Z := x mod 2 ^ 32.

(** uint32 addition. *)
Definition add32 (a b : Z) : Z := wrap32 (a + b).

(** [bits.RotateLeft32(x, -n)]. *)
Definition rotr (n x : Z) : Z :=
  Z.lor (Z.shiftr x n) (wrap32 (Z.shiftl x (32 - n))).

(** [^x] on a uint32. *)
Definition not32 (x : Z) : Z := Z.lxor x (2 ^ 32 - 1).

(** [n] has no divisor among [2 .. d]. *)
Fixpoint no_divisor (d : nat) (n : Z) : bool :=
  match d with
  | O | S O => true
  | S d' => negb (n mod Z.of_nat d =? 0) && no_divisor d' n
  end.

(** The first [count] primes from [n] on; [fuel] bounds the search. *)
Fixpoint primes_from (fuel count : nat) (n : Z) : list Z :=
  match fuel, count with
  | O, _ | _, O => []
  | S fuel', S count' =>
      if no_divisor (Z.to_nat (Z.sqrt n)) n
      then n :: primes_from fuel' count' (n + 1)
      else primes_from fuel' count (n + 1)
  end.

Definition primes (count : nat) : list Z := primes_from 400 count 2.

(** The integer cube root of [x], by bisection between [lo] and
    [lo + 2 ^ bits]. *)
Fixpoint cbrt_from (bits : nat) (lo x : Z) : Z :=
  match bits with
  | O => lo
  | S bits' =>
      let mid := lo + 2 ^ Z.of_nat bits' in
      if mid * mid * mid <=? x then cbrt_from bits' mid x
      else cbrt_from bits' lo x
  end.

(** The table [_K] of the round constants.  The source lists its 64 words;
    they are the first 32 bits of the fractional parts of the cube roots of
    the first 64 primes, and are computed as such here. *)
Definition _K : list Z :=
  Eval vm_compute in
    map (fun p => wrap32 (cbrt_from 40 0 (p * 2 ^ 96))) (primes 64).

(** The eight chaining words [h0 .. h7] of a digest. *)
Record digest : Set := mkDigest {
  h0 : Z; h1 : Z; h2 : Z; h3 : Z; h4 : Z; h5 : Z; h6 : Z; h7 : Z
}.

(** The first 32 bits of the fractional part of the square root of [p]. *)
Definition sqrt_frac (p : Z) : Z := wrap32 (Z.sqrt (p * 2 ^ 64)).

(** [init0 .. init7], the initial chaining words: the source lists them;
    they are [sqrt_frac] of the first eight primes. *)
Definition init : digest :=
  Eval vm_compute in
    mkDigest (sqrt_frac 2) (sqrt_frac 3) (sqrt_frac 5) (sqrt_frac 7)
             (sqrt_frac 11) (sqrt_frac 13) (sqrt_frac 17) (sqrt_frac 19).

(** Big-endian load of the sixteen message words of a block. *)
Fixpoint load_words (n : nat) (p : list Z) : list Z :=
  match n with
  | O => []
  | S n' =>
      match p with
      | b0 :: b1 :: b2 :: b3 :: rest =>
          Z.lor (Z.lor (Z.lor (Z.shiftl b0 24) (Z.shiftl b1 16))
                       (Z.shiftl b2 8)) b3
          :: load_words n' rest
      | _ => []
      end
  end.

(** The message schedule, most recent word first: with [w[i-1]] at the
    head, [w[i-2]], [w[i-7]], [w[i-15]] and [w[i-16]] sit at offsets 1, 6,
    14 and 15. *)
Fixpoint schedule (n : nat) (rw : list Z) : list Z :=
  match n with
  | O => rw
  | S n' =>
      let v1 := nth 1 rw 0 in
      let t1 := Z.lxor (Z.lxor (rotr 17 v1) (rotr 19 v1)) (Z.shiftr v1 10) in
      let v2 := nth 14 rw 0 in
      let t2 := Z.lxor (Z.lxor (rotr 7 v2) (rotr 18 v2)) (Z.shiftr v2 3) in
      let wi := add32 (add32 (add32 t1 (nth 6 rw 0)) t2) (nth 15 rw 0) in
      schedule n' (wi :: rw)
  end.

(** One of the 64 rounds, on the working variables [a .. h]. *)
Definition round (d : digest) (kw : Z * Z) : digest :=
  let '(mkDigest a b c d0 e f g h) := d in
  let t1 :=
    add32 (add32 (add32 (add32 h
      (Z.lxor (Z.lxor (rotr 6 e) (rotr 11 e)) (rotr 25 e)))
      (Z.lxor (Z.land e f) (Z.land (not32 e) g)))
      (fst kw)) (snd kw) in
  let t2 :=
    add32 (Z.lxor (Z.lxor (rotr 2 a) (rotr 13 a)) (rotr 22 a))
          (Z.lxor (Z.lxor (Z.land a b) (Z.land a c)) (Z.land b c)) in
  mkDigest (add32 t1 t2) a b c (add32 d0 t1) e f g.

(** [blockGeneric] on one 64-byte block. *)
Definition block (dig : digest) (p : list Z) : digest :=
  let w := rev (schedule 48 (rev (load_words 16 p))) in
  let r := fold_left round (combine _K w) dig in
  mkDigest (add32 (h0 dig) (h0 r)) (add32 (h1 dig) (h1 r))
           (add32 (h2 dig) (h2 r)) (add32 (h3 dig) (h3 r))
           (add32 (h4 dig) (h4 r)) (add32 (h5 dig) (h5 r))
           (add32 (h6 dig) (h6 r)) (add32 (h7 dig) (h7 r)).

(** [blockGeneric]'s outer loop, [for len(p) >= chunk]. *)
Fixpoint blocks (fuel : nat) (dig : digest) (p : list Z) : digest :=
  match fuel with
  | O => dig
  | S fuel' =>
      if (chunk <=? List.length p)%nat
      then blocks fuel' (block dig (firstn chunk p)) (skipn chunk p)
      else dig
  end.

(** Big-endian bytes of an integer, [n] of them. *)
Fixpoint be_bytes (n : nat) (x : Z) : list Z :=
  match n with
  | O => []
  | S n' => (Z.shiftr x (8 * Z.of_nat n')) mod 256 :: be_bytes n' x
  end.

(** [checkSum]'s padding: 0x80, zeros up to 56 mod 64, then the length in
    bits as a big-endian uint64. *)
Definition pad (msg : list Z) : list Z :=
  let len := Z.of_nat (List.length msg) in
  let zeros := Z.to_nat ((55 - len) mod 64) in
  msg ++ [0x80] ++ repeat 0 zeros ++ be_bytes 8 ((8 * len) mod 2 ^ 64).

(** [sha256.Sum256]: the 32 bytes of the checksum. *)
Definition Sum256 (data : list Z) : list Z :=
  let p := pad data in
  let d := blocks (List.length p) init p in
  be_bytes 4 (h0 d) ++ be_bytes 4 (h1 d) ++ be_bytes 4 (h2 d) ++
  be_bytes 4 (h3 d) ++ be_bytes 4 (h4 d) ++ be_bytes 4 (h5 d) ++
  be_bytes 4 (h6 d) ++ be_bytes 4 (h7 d).

End Sha256.

(** ** encoding/base64 *)

Module Base64.

(** [encodeURL]: the URL-safe alphabet of RFC 4648. *)
Definition encodeURL : string :=
  "ABCDEFGHIJKLMNOPQRSTUVWXYZabcdefghijklmnopqrstuvwxyz0123456789-_".

(** [enc.encode[v & 0x3F]]. *)
Definition encode (v : Z) : ascii :=
  match String.get (Z.to_nat (Z.land v 0x3F)) encodeURL with
  | Some c => c
  | None => "A"%char
  end.

(** [RawURLEncoding.EncodeToString]: three source bytes give four
    characters; a remainder of one or two bytes gives two or three, and
    no padding character is written. *)
Fixpoint EncodeToString (src : list Z) : string :=
  match src with
  | [] => EmptyString
  | [b0] =>
      let val := Z.shiftl b0 16 in
      String (encode (Z.shiftr val 18))
        (String (encode (Z.shiftr val 12)) EmptyString)
  | [b0; b1] =>
      let val := Z.lor (Z.shiftl b0 16) (Z.shiftl b1 8) in
      String (encode (Z.shiftr val 18))
        (String (encode (Z.shiftr val 12))
          (String (encode (Z.shiftr val 6)) EmptyString))
  | b0 :: b1 :: b2 :: rest =>
      let val := Z.lor (Z.lor (Z.shiftl b0 16) (Z.shiftl b1 8)) b2 in
      String (encode (Z.shiftr val 18))
        (String (encode (Z.shiftr val 12))
          (String (encode (Z.shiftr val 6))
            (String (encode val) (EncodeToString rest))))
  end.

(** A character of the URL-safe alphabet of RFC 4648, table 2: a letter, a
    digit, [-] or [_]; the padding character [=] is not one. *)
Definition url_safe (c : ascii) : bool :=
  let n := nat_of_ascii c in
  ((65 <=? n) && (n <=? 90) || (97 <=? n) && (n <=? 122) ||
   (48 <=? n) && (n <=? 57) || (n =? 45) || (n =? 95))%nat.

(** Every character of [s] satisfies [p]. *)
Fixpoint all_chars (p : ascii -> bool) (s : string) : bool :=
  match s with
  | EmptyString => true
  | String c rest => p c && all_chars p rest
  end.

(** [RawURLEncoding.EncodedLen(n)], for an encoding without padding. *)
Definition EncodedLen (n : nat) : nat := ((n * 8 + 5) / 6)%nat.

End Base64.

(** ** strconv, errors and fmt *)

(** A non-nil Go [error] value: one made by a collaborator, or one made by
    [fmt.Errorf] with a [%w] verb, which keeps the wrapped error. *)
Inductive error_value : Set :=
| errors_New (text : string)
| wrapError (msg : string) (err : error_value).

(** The Go interface type [error]; [None] is [nil]. *)
Definition error : Set := option error_value.

(** [err != nil]. *)
Definition is_error (err : error) : bool :=
  match err with
  | Some _ => true
  | None => false
  end.

(** The [Error()] method. *)
Definition Error (e : error_value) : string :=
  match e with
  | errors_New text => text
  | wrapError msg _ => msg
  end.

(** [errors.Unwrap]. *)
Definition Unwrap (e : error_value) : error :=
  match e with
  | errors_New _ => None
  | wrapError _ err => Some err
  end.

Module Strconv.

Definition ErrSyntax (fn str : string) : error_value :=
  errors_New ("strconv." ++ fn ++ ": parsing " ++ str ++ ": invalid syntax").

(** [strconv.ParseBool]: accepts 1, t, T, TRUE, true, True, 0, f, F,
    FALSE, false, False; any other value returns an error. *)
Definition ParseBool (str : string) : bool * error :=
  if existsb (String.eqb str) ["1"; "t"; "T"; "true"; "TRUE"; "True"]%string
  then (true, None)
  else if existsb (String.eqb str)
            ["0"; "f"; "F"; "false"; "FALSE"; "False"]%string
  then (false, None)
  else (false, Some (ErrSyntax "ParseBool" str)).

End Strconv.

(** ** Collaborating packages: time, miekg/dns, acme, api, challenge *)

(** [time.Duration]: a count of nanoseconds. *)
Definition Duration : Set := Z.
Definition Second : Duration := 1000000000.

Module dns.

Definition TypeCNAME : Z := 5.
Definition RcodeSuccess : Z := 0.

Record RR_Header : Set := { Name : string; Rrtype : Z }.

(** A resource record: a [*dns.CNAME], or a record of another type. *)
Inductive RR : Set :=
| CNAME (Hdr : RR_Header) (Target : string)
| OtherRR (Hdr : RR_Header).

(** The fields of [dns.Msg] the challenge reads. *)
Record Msg : Set := { Rcode : Z; Answer : list RR }.

End dns.

Module acme.

Record Identifier : Set := { Value : string }.

Record Challenge : Set := {
  URL : string;
  Type_ : string;
  Status : string;
  Token : string;
  KeyAuthorization : string
}.

Record Authorization : Set := {
  Identifier_ : Identifier;
  Challenges : list Challenge;
  Wildcard : bool
}.

(** [chlng.KeyAuthorization = keyAuth]. *)
Definition set_KeyAuthorization (chlng : Challenge) (keyAuth : string)
  : Challenge :=
  {| URL := URL chlng; Type_ := Type_ chlng; Status := Status chlng;
     Token := Token chlng; KeyAuthorization := keyAuth |}.

End acme.

Module api.

(** [*api.Core], by the one method the challenge calls. *)
Record Core : Type := {
  GetKeyAuthorization : string -> string * error
}.

End api.

Module challenge.

(** [challenge.DNS01]. *)
Definition DNS01 : string := "dns-01".

(** A [challenge.Provider] over a world [W]: the two methods of the
    interface, and the two optional capabilities the challenge probes by
    type assertion, [challenge.ProviderTimeout] and [sequential]; [None]
    when the provider's type does not have the method. *)
Record Provider (W : Type) : Type := {
  Present : string -> string -> string -> W -> error * W;
  CleanUp : string -> string -> string -> W -> error * W;
  Timeout : option (Duration * Duration);
  Sequential : option Duration
}.

Arguments Present {W}.
Arguments CleanUp {W}.
Arguments Timeout {W}.
Arguments Sequential {W}.

End challenge.

(** ** Package dns01: state, events and collaborators *)

(** What the challenge does to the outside, in the order it does it. *)
Inductive Event : Set :=
| EvLog (format : string) (args : list string)
| EvQuery (fqdn : string) (rtype : Z) (nameservers : list string)
          (recursive : bool)
| EvSleep (d : Duration)
| EvPreCheck (domain fqdn value : string)
| EvPresent (domain token keyAuth : string)
| EvCleanUp (domain token keyAuth : string)
| EvValidate (domain : string) (chlng : acme.Challenge).

(** The state a call runs in: the outside world (name servers, provider,
    ACME server, clock, environment) and the trace of events so far. *)
Record State (W : Type) : Type := mkState {
  world : W;
  trace : list Event
}.

Arguments mkState {W}.
Arguments world {W}.
Arguments trace {W}.

(** A computation that threads the state. *)
Definition M (W A : Type) : Type := State W -> A * State W.

Definition ret {W A : Type} (a : A) : M W A := fun s => (a, s).

Definition bind {W A B : Type} (m : M W A) (k : A -> M W B) : M W B :=
  fun s => let (a, s1) := m s in k a s1.

Declare Scope go_scope.
Delimit Scope go_scope with go.
Notation "x <- m ;; k" := (bind m (fun x => k))
  (at level 61, m at next level, right associativity) : go_scope.
Notation "m ;;; k" := (bind m (fun _ => k))
  (at level 61, right associativity) : go_scope.

(** Record an event. *)
Definition emit {W : Type} (e : Event) : M W unit :=
  fun s => (tt, mkState (world s) (trace s ++ [e])).

(** Run a collaborator on the world. *)
Definition extern {W A : Type} (f : W -> A * W) : M W A :=
  fun s => let (a, w) := f (world s) in (a, mkState w (trace s)).

(** How a lifecycle call ends: it returns its error result, it panics, or
    it is still polling when the observed ticks are used up. *)
Inductive outcome : Set :=
| Returned (err : error)
| Panicked
| Pending.

(** [ValidateFunc]. *)
Definition ValidateFunc (W : Type) : Type :=
  api.Core -> string -> acme.Challenge -> W -> error * W.

(** [preCheck], by its [call] method. *)
Record preCheck (W : Type) : Type := {
  call : string -> string -> string -> W -> (bool * error) * W
}.

Arguments call {W}.

(** [Challenge] implements the dns-01 challenge.  The provider is an
    interface value and may be nil. *)
Record Challenge (W : Type) : Type := {
  core : api.Core;
  validate : ValidateFunc W;
  provider : option (challenge.Provider W);
  preCheck_ : preCheck W;
  dnsTimeout : Duration
}.

Arguments core {W}.
Arguments validate {W}.
Arguments provider {W}.
Arguments preCheck_ {W}.
Arguments dnsTimeout {W}.

(** [ChallengeInfo] contains the information used to create the TXT
    record. *)
Record ChallengeInfo : Set := {
  FQDN : string;
  EffectiveFQDN : string;
  Value : string
}.

(** The code this file calls and does not define, over a world [W]:
    [os.Getenv]; the name-server list and the resolver of nameserver.go,
    whose query gives a message or an error and may change the world; the
    CNAME extraction of cname.go; the clock, [time.Now] and [time.Sleep];
    the error [wait.For] returns when the time is up; and the helpers
    [GetTargetedDomain] and [FindChallenge] of package challenge. *)
Class Env (W : Type) : Type := {
  os_Getenv : string -> W -> string;
  recursiveNameservers : list string;
  dnsQuery : string -> Z -> list string -> bool -> W
             -> (dns.Msg + error_value) * W;
  updateDomainWithCName : dns.Msg -> string -> string;
  time_Now : W -> Z;
  time_Sleep : Duration -> W -> W;
  wait_timeout_error : string -> error_value;
  GetTargetedDomain : acme.Authorization -> string;
  FindChallenge : string -> acme.Authorization -> acme.Challenge * error
}.

Section Effects.

Context {W : Type} {env : Env W}.

Local Open Scope go_scope.

(** [log.Infof(format, args...)]. *)
Definition log_Infof (format : string) (args : list string) : M W unit :=
  emit (EvLog format args).

(** [time.Sleep(d)]. *)
Definition Sleep (d : Duration) : M W unit :=
  emit (EvSleep d) ;;;
  extern (fun w => (tt, time_Sleep d w)).

(** [time.Now()], in nanoseconds. *)
Definition Now : M W Z :=
  extern (fun w => (time_Now w, w)).

(** A call of [dnsQuery], recorded in the trace. *)
Definition query (fqdn : string) (rtype : Z) (nameservers : list string)
           (recursive : bool) : M W (dns.Msg + error_value) :=
  emit (EvQuery fqdn rtype nameservers recursive) ;;;
  extern (dnsQuery fqdn rtype nameservers recursive).

End Effects.

Module wait.

Section For.

Context {W : Type} {env : Env W}.

Local Open Scope go_scope.

(** Modelled from the spec: the polling loop of [wait.For]
    (platform/wait), which is not part of this file's source.  One tick
    calls [check]: satisfied gives success; unsatisfied with time
    remaining sleeps [interval] and retries; unsatisfied with the time
    exhausted gives the timeout error, or the check's own error when
    the check failed.  [ticks] bounds the ticks observed; a loop still
    running after them is [Pending]. *)
Fixpoint poll (ticks : nat) (label : string) (deadline : Z)
         (interval : Duration) (check : M W (bool * error))
  : M W outcome :=
  match ticks with
  | O => ret Pending
  | S ticks' =>
      r <- check ;;
      let (satisfied, err) := (r : bool * error) in
      if satisfied then ret (Returned None)
      else
        now <- Now ;;
        if now <? deadline then
          Sleep interval ;;;
          poll ticks' label deadline interval check
        else
          match err with
          | Some e => ret (Returned (Some e))
          | None => ret (Returned (Some (wait_timeout_error label)))
          end
  end.

(** Modelled from the spec: [wait.For(label, timeout, interval, check)],
    the loop above with its deadline [timeout] from now. *)
Definition For (ticks : nat) (label : string)
           (timeout interval : Duration) (check : M W (bool * error))
  : M W outcome :=
  now <- Now ;;
  poll ticks label (now + timeout) interval check.

End For.

End wait.

Section Dns01.

Context {W : Type} {env : Env W}.

Local Open Scope go_scope.
Local Open Scope string_scope.

(** [DefaultPropagationTimeout], [DefaultPollingInterval], [DefaultTTL]. *)
Definition DefaultPropagationTimeout : Duration := 60 * Second.
Definition DefaultPollingInterval : Duration := 2 * Second.
Definition DefaultTTL : Z := 120.

(** The [%+v] rendering of a [[]string]. *)
Definition fmt_strings (l : list string) : string :=
  "[" ++ String.concat " " l ++ "]".

(** The loop of [getChallengeFQDN], [for limit := 0; limit < 50; limit++],
    with [remaining = 50 - limit] iterations to go. *)
Fixpoint followCNAMEs (remaining : nat) (fqdn : string) : M W string :=
  match remaining with
  | O => ret fqdn
  | S remaining' =>
      r <- query fqdn dns.TypeCNAME recursiveNameservers true ;;
      match r with
      | inr _ => ret fqdn
      | inl r =>
          if negb (dns.Rcode r =? dns.RcodeSuccess)%Z then ret fqdn
          else
            let cname := updateDomainWithCName r fqdn in
            if String.eqb cname fqdn then ret fqdn
            else
              log_Infof "Found CNAME entry for %q: %q" [fqdn; cname] ;;;
              followCNAMEs remaining' cname
      end
  end.

Definition getChallengeFQDN (domain : string) (followCNAME : bool)
  : M W string :=
  let fqdn := "_acme-challenge." ++ domain ++ "." in
  if negb followCNAME then ret fqdn
  else followCNAMEs 50 fqdn.

(** [GetChallengeInfo] returns information used to create a DNS record
    which will fulfill the dns-01 challenge. *)
Definition GetChallengeInfo (domain keyAuth : string) : M W ChallengeInfo :=
  let keyAuthShaBytes := Sha256.Sum256 (bytes_of_string keyAuth) in
  let value :=
    Base64.EncodeToString (firstn Sha256.Size keyAuthShaBytes) in
  v <- extern (fun w => (os_Getenv "LEGO_DISABLE_CNAME_SUPPORT" w, w)) ;;
  let (ok, _) := Strconv.ParseBool v in
  fqdn <- getChallengeFQDN domain false ;;
  effective <- getChallengeFQDN domain (negb ok) ;;
  ret {| Value := value; FQDN := fqdn; EffectiveFQDN := effective |}.

(** [GetRecord] returns a DNS record which will fulfill the dns-01
    challenge.  Deprecated: use GetChallengeInfo instead. *)
Definition GetRecord (domain keyAuth : string) : M W (string * string) :=
  info <- GetChallengeInfo domain keyAuth ;;
  ret (EffectiveFQDN info, Value info).

(** [PreSolve] just submits the txt record to the dns provider. *)
Definition PreSolve (c : Challenge W) (authz : acme.Authorization)
  : M W error :=
  let domain := GetTargetedDomain authz in
  log_Infof "[%s] acme: Preparing to solve DNS-01" [domain] ;;;
  let (chlng, err) := FindChallenge challenge.DNS01 authz in
  match err with
  | Some e => ret (Some e)
  | None =>
  match provider c with
  | None =>
      ret (Some (errors_New
                   ("[" ++ domain ++ "] acme: no DNS Provider configured")))
  | Some p =>
  let (keyAuth, err) :=
    api.GetKeyAuthorization (core c) (acme.Token chlng) in
  match err with
  | Some e => ret (Some e)
  | None =>
      emit (EvPresent (acme.Value (acme.Identifier_ authz))
                      (acme.Token chlng) keyAuth) ;;;
      err <- extern (challenge.Present p
                       (acme.Value (acme.Identifier_ authz))
                       (acme.Token chlng) keyAuth) ;;
      match err with
      | Some e =>
          ret (Some (wrapError
                       ("[" ++ domain ++ "] acme: error presenting token: "
                            ++ Error e) e))
      | None => ret None
      end
  end end end.

(** The [timeout, interval] of [Solve]: the provider's, when it is a
    [challenge.ProviderTimeout], else the defaults. *)
Definition propagation_timing (c : Challenge W) : Duration * Duration :=
  match provider c with
  | Some p =>
      match challenge.Timeout p with
      | Some ti => ti
      | None => (DefaultPropagationTimeout, DefaultPollingInterval)
      end
  | None => (DefaultPropagationTimeout, DefaultPollingInterval)
  end.

(** The function [Solve] hands to [wait.For]. *)
Definition propagation_check (c : Challenge W) (domain : string)
           (info : ChallengeInfo) : M W (bool * error) :=
  emit (EvPreCheck domain (EffectiveFQDN info) (Value info)) ;;;
  r <- extern (call (preCheck_ c) domain (EffectiveFQDN info)
                    (Value info)) ;;
  let (stop, errP) := (r : bool * error) in
  (if negb stop || is_error errP
   then log_Infof "[%s] acme: Waiting for DNS record propagation." [domain]
   else ret tt) ;;;
  ret (stop, errP).

(** Where [Solve] stands when [wait.For] has returned: it has left early
    with an error, or it holds its locals and the result of the wait. *)
Inductive polled : Set :=
| Early (err : error_value) (chlng : acme.Challenge)
| Polled (domain : string) (chlng : acme.Challenge) (keyAuth : string)
         (r : outcome).

(** [Solve], up to and including the call of [wait.For]. *)
Definition Solve_poll (ticks : nat) (c : Challenge W)
           (authz : acme.Authorization) : M W polled :=
  let domain := GetTargetedDomain authz in
  log_Infof "[%s] acme: Trying to solve DNS-01" [domain] ;;;
  let (chlng, err) := FindChallenge challenge.DNS01 authz in
  match err with
  | Some e => ret (Early e chlng)
  | None =>
  let (keyAuth, err) :=
    api.GetKeyAuthorization (core c) (acme.Token chlng) in
  match err with
  | Some e => ret (Early e chlng)
  | None =>
      info <- GetChallengeInfo (acme.Value (acme.Identifier_ authz))
                               keyAuth ;;
      let (timeout, interval) := propagation_timing c in
      log_Infof "[%s] acme: Checking DNS record propagation using %+v"
                [domain; fmt_strings recursiveNameservers] ;;;
      Sleep interval ;;;
      r <- wait.For ticks "propagation" timeout interval
                    (propagation_check c domain info) ;;
      ret (Polled domain chlng keyAuth r)
  end end.

(** [Solve], with the final value of its local [chlng] next to the
    result. *)
Definition Solve_frame (ticks : nat) (c : Challenge W)
           (authz : acme.Authorization) : M W (outcome * acme.Challenge) :=
  p <- Solve_poll ticks c authz ;;
  match p with
  | Early e chlng => ret (Returned (Some e), chlng)
  | Polled domain chlng keyAuth r =>
      match r with
      | Returned (Some e) => ret (Returned (Some e), chlng)
      | Returned None =>
          let chlng := acme.set_KeyAuthorization chlng keyAuth in
          emit (EvValidate domain chlng) ;;;
          err <- extern (validate c (core c) domain chlng) ;;
          ret (Returned err, chlng)
      | Panicked => ret (Panicked, chlng)
      | Pending => ret (Pending, chlng)
      end
  end.

Definition Solve (ticks : nat) (c : Challenge W)
           (authz : acme.Authorization) : M W outcome :=
  r <- Solve_frame ticks c authz ;;
  ret (fst r).

(** [CleanUp] cleans the challenge.  Calling a method of a nil provider
    panics. *)
Definition CleanUp (c : Challenge W) (authz : acme.Authorization)
  : M W outcome :=
  log_Infof "[%s] acme: Cleaning DNS-01 challenge"
            [GetTargetedDomain authz] ;;;
  let (chlng, err) := FindChallenge challenge.DNS01 authz in
  match err with
  | Some e => ret (Returned (Some e))
  | None =>
  let (keyAuth, err) :=
    api.GetKeyAuthorization (core c) (acme.Token chlng) in
  match err with
  | Some e => ret (Returned (Some e))
  | None =>
  match provider c with
  | None => ret Panicked
  | Some p =>
      emit (EvCleanUp (acme.Value (acme.Identifier_ authz))
                      (acme.Token chlng) keyAuth) ;;;
      err <- extern (challenge.CleanUp p
                       (acme.Value (acme.Identifier_ authz))
                       (acme.Token chlng) keyAuth) ;;
      ret (Returned err)
  end end end.

(** [Sequential]: the type assertion [c.provider.(sequential)] holds when
    the provider has the method. *)
Definition Sequential (c : Challenge W) : bool * Duration :=
  match provider c with
  | Some p =>
      match challenge.Sequential p with
      | Some d => (true, d)
      | None => (false, 0%Z)
      end
  | None => (false, 0%Z)
  end.

End Dns01.

(** ** cname.go *)

Module Cname.

Definition is_CNAME (rr : dns.RR) : bool :=
  match rr with
  | dns.CNAME _ _ => true
  | dns.OtherRR _ => false
  end.

(** The response carries a CNAME answer. *)
Definition has_cname (r : dns.Msg) : bool :=
  existsb is_CNAME (dns.Answer r).

Fixpoint first_target (answer : list dns.RR) (fqdn : string) : string :=
  match answer with
  | [] => fqdn
  | dns.CNAME _ target :: _ => target
  | dns.OtherRR _ :: rest => first_target rest fqdn
  end.

(** Modelled from the spec: [updateDomainWithCName] of cname.go, which is
    not part of this file's source.  The walk stops with the current name
    when the response has no CNAME answer and otherwise advances to the
    CNAME target: the function gives the target of the CNAME answer, and
    the name itself when there is none. *)
Definition updateDomainWithCName (r : dns.Msg) (fqdn : string) : string :=
  first_target (dns.Answer r) fqdn.

End Cname.

(** ** What the name servers answer *)

Section Resolver.

Context {W : Type} {env : Env W}.

(** The query [getChallengeFQDN] sends for a name. *)
Definition resolveCNAME (fqdn : string) (w : W)
  : (dns.Msg + error_value) * W :=
  dnsQuery fqdn dns.TypeCNAME recursiveNameservers true w.

(** One hop of a CNAME chain: in world [w] the query for [n] succeeds and
    the CNAME found for [n] is another name [c]; [w'] is the world after
    the query. *)
Definition hop (w : W) (n : string) (w' : W) (c : string) : Prop :=
  exists r : dns.Msg,
    resolveCNAME n w = (inl r, w') /\
    dns.Rcode r = dns.RcodeSuccess /\
    updateDomainWithCName r n = c /\
    c <> n.

(** [cname_chain w n k t]: from world [w], the name servers lead from [n]
    through [k] hops to [t], where the query fails, or is answered with a
    code other than success, or is answered without a CNAME. *)
Inductive cname_chain : W -> string -> nat -> string -> Prop :=
| chain_failed (w : W) (n : string) (e : error_value) (w' : W) :
    resolveCNAME n w = (inr e, w') ->
    cname_chain w n 0 n
| chain_rcode (w : W) (n : string) (r : dns.Msg) (w' : W) :
    resolveCNAME n w = (inl r, w') ->
    dns.Rcode r <> dns.RcodeSuccess ->
    cname_chain w n 0 n
| chain_no_cname (w : W) (n : string) (r : dns.Msg) (w' : W) :
    resolveCNAME n w = (inl r, w') ->
    Cname.has_cname r = false ->
    cname_chain w n 0 n
| chain_hop (w : W) (n : string) (w' : W) (c : string) (k : nat)
            (t : string) :
    hop w n w' c ->
    cname_chain w' c k t ->
    cname_chain w n (S k) t.

(** [cname_hops w n k w' t]: [k] hops in a row lead from [n] in world
    [w] to [t] in world [w']; the chain may go on from there. *)
Inductive cname_hops : W -> string -> nat -> W -> string -> Prop :=
| hops_O (w : W) (n : string) :
    cname_hops w n 0 w n
| hops_S (w : W) (n : string) (w1 : W) (c : string) (k : nat) (w' : W)
         (t : string) :
    hop w n w1 c ->
    cname_hops w1 c k w' t ->
    cname_hops w n (S k) w' t.

(** The names of [cyc] form a CNAME cycle: whatever the world, each one
    is answered with a CNAME to the next, and the last with a CNAME to
    the first. *)
Definition cname_cycle (cyc : list string) : Prop :=
  forall (i : nat) (w : W),
    (i < List.length cyc)%nat ->
    exists w' : W,
      hop w (nth i cyc EmptyString) w'
          (nth (S i mod List.length cyc) cyc EmptyString).

(** An immediate self-reference: the query for [n] succeeds and the CNAME
    found for [n] is [n] itself. *)
Definition self_reference (w : W) (n : string) : Prop :=
  exists (r : dns.Msg) (w' : W),
    resolveCNAME n w = (inl r, w') /\
    dns.Rcode r = dns.RcodeSuccess /\
    Cname.has_cname r = true /\
    updateDomainWithCName r n = n.

End Resolver.

(** ** Reading a trace *)

Definition is_query (e : Event) : bool :=
  match e with
  | EvQuery _ _ _ _ => true
  | _ => false
  end.

(** The log line [getChallengeFQDN] writes when it advances to a CNAME. *)
Definition is_advance (e : Event) : bool :=
  match e with
  | EvLog format _ => String.eqb format "Found CNAME entry for %q: %q"
  | _ => false
  end.

Definition is_validate (e : Event) : bool :=
  match e with
  | EvValidate _ _ => true
  | _ => false
  end.

(** The events of the CNAME walk: queries and the log lines of its
    advances. *)
Definition walk_event (e : Event) : bool := is_query e || is_advance e.

Definition count (p : Event -> bool) (t : list Event) : nat :=
  List.length (filter p t).

(** The events between state [s] and a later state [s']. *)
Definition emitted {W : Type} (s s' : State W) : list Event :=
  skipn (List.length (trace s)) (trace s').

(** Sleeps of [interval] and propagation checks alternate in [evs];
    [sleep_next] says which of the two has to come first.  Other events do
    not count. *)
Fixpoint alternates (interval : Duration) (sleep_next : bool)
         (evs : list Event) : bool :=
  match evs with
  | [] => true
  | EvSleep d :: rest =>
      sleep_next && (d =? interval) && alternates interval false rest
  | EvPreCheck _ _ _ :: rest =>
      negb sleep_next && alternates interval true rest
  | _ :: rest => alternates interval sleep_next rest
  end.

(** Every propagation check comes right after a sleep of [interval], and
    between two sleeps there is a check. *)
Definition paced (interval : Duration) (evs : list Event) : bool :=
  alternates interval true evs.

(** Sleeps and propagation checks: the events that pace the polling. *)
Definition is_timing (e : Event) : bool :=
  match e with
  | EvSleep _ => true
  | EvPreCheck _ _ _ => true
  | _ => false
  end.

(** Events that neither pace the polling nor call the validator. *)
Definition quiet (e : Event) : bool :=
  negb (is_timing e) && negb (is_validate e).

(** The log line of a check that has not seen the record. *)
Definition waiting_log (domain : string) (r : bool * error) : list Event :=
  if negb (fst r) || is_error (snd r)
  then [EvLog "[%s] acme: Waiting for DNS record propagation." [domain]]
  else [].

(** [sub] occurs in [s]. *)
Fixpoint contains (sub s : string) : bool :=
  String.prefix sub s ||
  match s with
  | EmptyString => false
  | String _ rest => contains sub rest
  end.

(** The error message names the domain. *)
Definition carries_domain (domain : string) (e : error_value) : bool :=
  contains domain (Error e).

(** ** A test double: a small zone, a clock and scripted collaborators *)

Module Mock.

Local Open Scope string_scope.

(** The world of the double: the clock in nanoseconds and the value of
    LEGO_DISABLE_CNAME_SUPPORT. *)
Record World : Set := {
  clock : Z;
  disable_cname : string
}.

(** The CNAME records of the zone. *)
Definition zone : list (string * string) :=
  [ ("_acme-challenge.example.com.", "alias.example.net.");
    ("alias.example.net.", "target.example.org.");
    ("_acme-challenge.loop.test.", "b.loop.test.");
    ("b.loop.test.", "_acme-challenge.loop.test.");
    ("_acme-challenge.self.test.", "_acme-challenge.self.test.") ].

Fixpoint lookup (name : string) (records : list (string * string))
  : option string :=
  match records with
  | [] => None
  | (owner, target) :: rest =>
      if String.eqb owner name then Some target else lookup name rest
  end.

(** The resolver: a name of the zone is answered with its CNAME, the name
    [_acme-challenge.down.test.] with a query failure, any other name
    with success and no answer. *)
Definition resolver (fqdn : string) (rtype : Z) (nameservers : list string)
           (recursive : bool) (w : World)
  : (dns.Msg + error_value) * World :=
  if String.eqb fqdn "_acme-challenge.down.test."
  then (inr (errors_New "i/o timeout"), w)
  else
    match lookup fqdn zone with
    | Some target =>
        (inl {| dns.Rcode := dns.RcodeSuccess;
                dns.Answer :=
                  [dns.CNAME {| dns.Name := fqdn;
                                dns.Rrtype := dns.TypeCNAME |} target] |},
         w)
    | None =>
        (inl {| dns.Rcode := dns.RcodeSuccess; dns.Answer := [] |}, w)
    end.

Definition zero_Challenge : acme.Challenge :=
  {| acme.URL := ""; acme.Type_ := ""; acme.Status := "";
     acme.Token := ""; acme.KeyAuthorization := "" |}.

Definition targeted (authz : acme.Authorization) : string :=
  if acme.Wildcard authz
  then "*." ++ acme.Value (acme.Identifier_ authz)
  else acme.Value (acme.Identifier_ authz).

Definition find_challenge (chlgType : string) (authz : acme.Authorization)
  : acme.Challenge * error :=
  match find (fun c => String.eqb (acme.Type_ c) chlgType)
             (acme.Challenges authz) with
  | Some c => (c, None)
  | None =>
      (zero_Challenge,
       Some (errors_New ("[" ++ targeted authz
                             ++ "] acme: unable to find challenge "
                             ++ chlgType)))
  end.

#[export] Instance env : Env World := {|
  os_Getenv := fun _ w => disable_cname w;
  recursiveNameservers := ["192.0.2.53:53"];
  dnsQuery := resolver;
  updateDomainWithCName := Cname.updateDomainWithCName;
  time_Now := clock;
  time_Sleep := fun d w =>
    {| clock := clock w + d; disable_cname := disable_cname w |};
  wait_timeout_error := fun label =>
    errors_New (label ++ ": time limit exceeded");
  GetTargetedDomain := targeted;
  FindChallenge := find_challenge
|}.

Definition acme_core : api.Core :=
  {| api.GetKeyAuthorization := fun token => (token ++ ".thumbprint", None) |}.

(** A provider whose calls succeed, without optional capability. *)
Definition plain_provider : challenge.Provider World :=
  {| challenge.Present := fun _ _ _ w => (None, w);
     challenge.CleanUp := fun _ _ _ w => (None, w);
     challenge.Timeout := None;
     challenge.Sequential := None |}.

(** A provider whose calls fail, with both optional capabilities. *)
Definition failing_provider : challenge.Provider World :=
  {| challenge.Present := fun _ _ _ w => (Some (errors_New "boom"), w);
     challenge.CleanUp := fun _ _ _ w => (Some (errors_New "boom"), w);
     challenge.Timeout := Some (3 * Second, 1 * Second);
     challenge.Sequential := Some (5 * Second) |}.

(** A check that never sees the record. *)
Definition never : preCheck World :=
  {| call := fun _ _ _ w => ((false, None), w) |}.

(** A check that sees the record once the clock has reached [t]. *)
Definition from (t : Z) : preCheck World :=
  {| call := fun _ _ _ w => ((t <=? clock w)%Z, None, w) |}.

Definition mkChallenge (p : option (challenge.Provider World))
           (check : preCheck World) : Challenge World :=
  {| core := acme_core;
     validate := fun _ _ _ w => (None, w);
     provider := p;
     preCheck_ := check;
     dnsTimeout := 10 * Second |}.

Definition authz (domain : string) : acme.Authorization :=
  {| acme.Identifier_ := {| acme.Value := domain |};
     acme.Challenges :=
       [ {| acme.URL := "https://acme.test/chall/1";
            acme.Type_ := "http-01"; acme.Status := "pending";
            acme.Token := "tok-http"; acme.KeyAuthorization := "" |};
         {| acme.URL := "https://acme.test/chall/2";
            acme.Type_ := "dns-01"; acme.Status := "pending";
            acme.Token := "tok-dns"; acme.KeyAuthorization := "" |} ];
     acme.Wildcard := false |}.

(** The start: clock at zero, empty trace; CNAME support on or off. *)
Definition start : State World :=
  mkState {| clock := 0; disable_cname := "" |} [].

Definition start_disabled : State World :=
  mkState {| clock := 0; disable_cname := "true" |} [].

End Mock.

(** ** Construction of a challenge *)

Section Construction.

Context {W : Type} {env : Env W}.

Local Open Scope go_scope.

(** [ChallengeOption]: a function on the challenge under construction,
    which may change it, may act on the world, and returns an error. *)
Definition ChallengeOption : Type :=
  Challenge W -> W -> (Challenge W * error) * W.

(** [CondOption]: conditional challenge option. *)
Definition CondOption (condition : bool) (opt : ChallengeOption)
  : ChallengeOption :=
  if negb condition
  then fun chlg w => ((chlg, None), w)
  else opt.

(** The loop of [NewChallenge], [for _, opt := range opts]: an option that
    fails is logged and the loop goes on. *)
Fixpoint apply_options (opts : list ChallengeOption) (chlg : Challenge W)
  : M W (Challenge W) :=
  match opts with
  | [] => ret chlg
  | opt :: rest =>
      r <- extern (opt chlg) ;;
      let (chlg', err) := (r : Challenge W * error) in
      match err with
      | Some e => log_Infof "challenge option error: %v" [Error e]
      | None => ret tt
      end ;;;
      apply_options rest chlg'
  end.

(** [NewChallenge]; [newPreCheck] is the check that [newPreCheck()] of
    precheck.go gives. *)
Definition NewChallenge (newPreCheck : preCheck W) (core : api.Core)
           (validate : ValidateFunc W)
           (provider : option (challenge.Provider W))
           (opts : list ChallengeOption) : M W (Challenge W) :=
  apply_options opts
    {| core := core;
       validate := validate;
       provider := provider;
       preCheck_ := newPreCheck;
       dnsTimeout := 10 * Second |}.

(** The walk stops at [n] in world [w]: the query fails, or is answered
    with a code other than success, or gives no other name than [n]. *)
Definition walk_stops (w : W) (n : string) : Prop :=
  match resolveCNAME n w with
  | (inr _, _) => True
  | (inl r, _) =>
      dns.Rcode r <> dns.RcodeSuccess \/ updateDomainWithCName r n = n
  end.

(** An event of the CNAME walk, as the walk writes it: a recursive query of
    type CNAME to the recursive name servers, or the log line of an
    advance. *)
Definition walk_written (e : Event) : Prop :=
  match e with
  | EvQuery _ rtype nameservers recursive =>
      rtype = dns.TypeCNAME /\ nameservers = recursiveNameservers /\
      recursive = true
  | EvLog format _ => format = "Found CNAME entry for %q: %q"%string
  | _ => False
  end.

(** An event of the polling phase of [Solve] for [domain] and [info] with
    the interval [interval]: a sleep of the interval, a propagation check
    of the record of [info], or the log line of a check that has to be
    repeated. *)
Definition poll_written (domain : string) (info : ChallengeInfo)
           (interval : Duration) (e : Event) : Prop :=
  e = EvSleep interval \/
  e = EvPreCheck domain (EffectiveFQDN info) (Value info) \/
  e = EvLog "[%s] acme: Waiting for DNS record propagation." [domain].

End Construction.

Definition is_present (e : Event) : bool :=
  match e with
  | EvPresent _ _ _ => true
  | _ => false
  end.

Definition is_cleanup (e : Event) : bool :=
  match e with
  | EvCleanUp _ _ _ => true
  | _ => false
  end.

Definition is_precheck (e : Event) : bool :=
  match e with
  | EvPreCheck _ _ _ => true
  | _ => false
  end.

(** An event by which the challenge acts on the DNS or on the ACME server,
    or waits: everything but a log line. *)
Definition is_action (e : Event) : bool :=
  match e with
  | EvLog _ _ => false
  | _ => true
  end.

(** ** More test doubles *)

Module Doubles.

Local Open Scope string_scope.

(** LEGO_DISABLE_CNAME_SUPPORT holds a value that is no boolean. *)
Definition start_yes : State Mock.World :=
  mkState {| Mock.clock := 0; Mock.disable_cname := "yes" |} [].

(** An authorization without dns-01 challenge. *)
Definition authz_http (domain : string) : acme.Authorization :=
  {| acme.Identifier_ := {| acme.Value := domain |};
     acme.Challenges :=
       [ {| acme.URL := "https://acme.test/chall/1";
            acme.Type_ := "http-01"; acme.Status := "pending";
            acme.Token := "tok-http"; acme.KeyAuthorization := "" |} ];
     acme.Wildcard := false |}.

(** A wildcard authorization. *)
Definition authz_wildcard (domain : string) : acme.Authorization :=
  {| acme.Identifier_ := {| acme.Value := domain |};
     acme.Challenges :=
       [ {| acme.URL := "https://acme.test/chall/3";
            acme.Type_ := "dns-01"; acme.Status := "pending";
            acme.Token := "tok-wild"; acme.KeyAuthorization := "" |} ];
     acme.Wildcard := true |}.

(** A core that cannot compute the key authorization. *)
Definition broken_core : api.Core :=
  {| api.GetKeyAuthorization :=
       fun _ => ("", Some (errors_New "no account key")) |}.

Definition with_core (k : api.Core) (c : Challenge Mock.World)
  : Challenge Mock.World :=
  {| core := k; validate := validate c; provider := provider c;
     preCheck_ := preCheck_ c; dnsTimeout := dnsTimeout c |}.

(** A validator that rejects the challenge. *)
Definition with_rejecting_validator (c : Challenge Mock.World)
  : Challenge Mock.World :=
  {| core := core c;
     validate := fun _ _ _ w => (Some (errors_New "unauthorized"), w);
     provider := provider c;
     preCheck_ := preCheck_ c; dnsTimeout := dnsTimeout c |}.

(** An option that sets the DNS timeout. *)
Definition set_timeout (d : Duration) : ChallengeOption (W := Mock.World) :=
  fun chlg w =>
    ({| core := core chlg; validate := validate chlg;
        provider := provider chlg; preCheck_ := preCheck_ chlg;
        dnsTimeout := d |}, None, w).

(** An option that fails and leaves the challenge as it is. *)
Definition bad_option : ChallengeOption (W := Mock.World) :=
  fun chlg w => (chlg, Some (errors_New "bad option"), w).

End Doubles.

(** * Properties *)

(** ** The record value *)

Example sha256_K_ends :
  (hd 0 Sha256._K, last Sha256._K 0, List.length Sha256._K) =
  (0x428a2f98, 0xc67178f2, 64%nat).
Proof. reflexivity. Qed.

Example sha256_init_ends :
  (Sha256.h0 Sha256.init, Sha256.h7 Sha256.init) = (0x6a09e667, 0x5be0cd19).
Proof. reflexivity. Qed.

Example sha256_abc :
  Base64.EncodeToString (Sha256.Sum256 (bytes_of_string "abc")) =
  "ungWv48Bz-pBQUDeXa4iI7ADYaOWF3qctBD_YfIAFa0"%string.
Proof. vm_compute. reflexivity. Qed.

Example sha256_two_blocks :
  Base64.EncodeToString
    (Sha256.Sum256
       (bytes_of_string
          "abcdbcdecdefdefgefghfghighijhijkijkljklmklmnlmnomnopnopq")) =
  "JI1qYdIGOLjlwCaTDD5gOaM85Flk_yFn9uzt1BnbBsE"%string.
Proof. vm_compute. reflexivity. Qed.

Lemma be_bytes_length (n : nat) (x : Z) :
  List.length (Sha256.be_bytes n x) = n.
Proof. induction n as [|n IH]; simpl; [reflexivity | now rewrite IH]. Qed.

(** A checksum has [sha256.Size] bytes, whatever the data. *)
Lemma Sum256_length (data : list Z) :
  List.length (Sha256.Sum256 data) = Sha256.Size.
Proof.
  unfold Sha256.Sum256.
  repeat rewrite length_app. repeat rewrite be_bytes_length. reflexivity.
Qed.

Lemma EncodedLen_three (n : nat) :
  Base64.EncodedLen (3 + n) = (4 + Base64.EncodedLen n)%nat.
Proof.
  unfold Base64.EncodedLen.
  replace ((3 + n) * 8 + 5)%nat with ((n * 8 + 5) + 4 * 6)%nat by lia.
  rewrite Nat.div_add by discriminate. lia.
Qed.

(** The encoding of [n] bytes has [EncodedLen n] characters. *)
Lemma EncodeToString_length :
  forall src : list Z,
    String.length (Base64.EncodeToString src) =
    Base64.EncodedLen (List.length src).
Proof.
  fix IH 1.
  intros [|b0 [|b1 [|b2 rest]]]; try reflexivity.
  change (List.length (b0 :: b1 :: b2 :: rest))
    with (3 + List.length rest)%nat.
  rewrite EncodedLen_three. cbn [Base64.EncodeToString String.length].
  rewrite IH. reflexivity.
Qed.

Lemma encode_url_safe (v : Z) : Base64.url_safe (Base64.encode v) = true.
Proof.
  unfold Base64.encode.
  change 0x3F with (Z.ones 6). rewrite Z.land_ones by lia.
  assert (Htable :
            forallb (fun i =>
                       Base64.url_safe
                         match String.get i Base64.encodeURL with
                         | Some c => c
                         | None => "A"%char
                         end) (seq 0 64) = true) by (vm_compute; reflexivity).
  rewrite forallb_forall in Htable. apply Htable. apply in_seq.
  pose proof (Z.mod_pos_bound v (2 ^ 6)). lia.
Qed.

(** The encoding is written in the URL-safe alphabet, without padding
    character. *)
Lemma EncodeToString_url_safe :
  forall src : list Z,
    Base64.all_chars Base64.url_safe (Base64.EncodeToString src) = true.
Proof.
  fix IH 1.
  intros [|b0 [|b1 [|b2 rest]]];
    cbn [Base64.EncodeToString Base64.all_chars];
    rewrite ?encode_url_safe, ?IH; reflexivity.
Qed.

(** The values [strconv.ParseBool] reads as true. *)
Lemma ParseBool_true_iff (str : string) :
  fst (Strconv.ParseBool str) = true <->
  In str ["1"; "t"; "T"; "true"; "TRUE"; "True"]%string.
Proof.
  unfold Strconv.ParseBool.
  destruct (existsb (String.eqb str)
                    ["1"; "t"; "T"; "true"; "TRUE"; "True"]%string) eqn:Htrue.
  - apply existsb_exists in Htrue. destruct Htrue as [x [Hin Heq]].
    apply String.eqb_eq in Heq. rewrite Heq. now split.
  - assert (Hnot : ~ In str ["1"; "t"; "T"; "true"; "TRUE"; "True"]%string).
    { intros Hin. enough (true = false) by discriminate.
      rewrite <- Htrue. symmetry. apply existsb_exists.
      exists str. split; [exact Hin | apply String.eqb_refl]. }
    destruct (existsb (String.eqb str)
                ["0"; "f"; "F"; "false"; "FALSE"; "False"]%string);
      cbn [fst]; split; intros H; try discriminate H; now elim Hnot.
Qed.

Lemma firstn_Size_Sum256 (data : list Z) :
  firstn Sha256.Size (Sha256.Sum256 data) = Sha256.Sum256 data.
Proof. apply firstn_all2. rewrite Sum256_length. apply le_n. Qed.

Section ValueProperties.

Context {W : Type} {env : Env W}.

Lemma GetChallengeInfo_Value (domain keyAuth : string) (s : State W) :
  Value (fst (GetChallengeInfo domain keyAuth s)) =
  Base64.EncodeToString (Sha256.Sum256 (bytes_of_string keyAuth)).
Proof.
  unfold GetChallengeInfo, bind, extern, ret.
  destruct (Strconv.ParseBool _) as [ok e].
  destruct (getChallengeFQDN domain false _) as [fqdn s1].
  destruct (getChallengeFQDN domain (negb ok) s1) as [eff s2].
  cbn [fst Value]. now rewrite firstn_Size_Sum256.
Qed.

End ValueProperties.

(** C1.  For every non-empty keyAuthorization, the Value of the
    ChallengeInfo that GetChallengeInfo returns is the unpadded base64url
    encoding of the SHA-256 checksum of the keyAuthorization, it has exactly
    43 characters, all of the URL-safe alphabet, and it is deterministic:
    the same keyAuthorization gives the same Value for any domain, in any
    state of any world. *)
Theorem GetChallengeInfo_Value_sha256_base64url :
  forall (W : Type) (env : Env W) (domain keyAuth : string) (s : State W),
    keyAuth <> EmptyString ->
    Value (fst (GetChallengeInfo domain keyAuth s)) =
      Base64.EncodeToString (Sha256.Sum256 (bytes_of_string keyAuth)) /\
    String.length (Value (fst (GetChallengeInfo domain keyAuth s))) = 43%nat /\
    Base64.all_chars Base64.url_safe
      (Value (fst (GetChallengeInfo domain keyAuth s))) = true /\
    (forall (W' : Type) (env' : Env W') (domain' : string) (s' : State W'),
        Value (fst (GetChallengeInfo domain' keyAuth s')) =
        Value (fst (GetChallengeInfo domain keyAuth s))).
Proof.
  intros W env domain keyAuth s _. split; [|split; [|split]].
  - apply GetChallengeInfo_Value.
  - rewrite GetChallengeInfo_Value, EncodeToString_length, Sum256_length.
    reflexivity.
  - rewrite GetChallengeInfo_Value. apply EncodeToString_url_safe.
  - intros W' env' domain' s'. now rewrite !GetChallengeInfo_Value.
Qed.

Lemma GetChallengeInfo_Value_sha256_base64url_witness :
  "abc"%string <> EmptyString /\
  Value (fst (GetChallengeInfo (env := Mock.env)
                               "example.com" "abc" Mock.start)) =
    "ungWv48Bz-pBQUDeXa4iI7ADYaOWF3qctBD_YfIAFa0"%string /\
  String.length
    (Value (fst (GetChallengeInfo (env := Mock.env)
                                  "example.com" "abc" Mock.start))) = 43%nat.
Proof.
  assert (H : "abc"%string <> EmptyString) by discriminate.
  split; [exact H|].
  destruct (GetChallengeInfo_Value_sha256_base64url
              Mock.World Mock.env "example.com" "abc" Mock.start H)
    as [Hv [Hl _]].
  split; [rewrite Hv; vm_compute; reflexivity | exact Hl].
Defined.

(** ** Traces *)

Lemma emitted_app {W : Type} (s s' : State W) (evs : list Event) :
  trace s' = trace s ++ evs -> emitted s s' = evs.
Proof.
  intros H. unfold emitted. rewrite H.
  rewrite skipn_app, skipn_all, Nat.sub_diag. reflexivity.
Qed.

Lemma count_app (p : Event -> bool) (t u : list Event) :
  count p (t ++ u) = (count p t + count p u)%nat.
Proof. unfold count. now rewrite filter_app, length_app. Qed.

Lemma count_none (p : Event -> bool) (t : list Event) :
  forallb (fun e => negb (p e)) t = true -> count p t = 0%nat.
Proof.
  unfold count. induction t as [|e t IH]; simpl; [reflexivity|].
  intros H. apply andb_prop in H. destruct H as [He Ht].
  destruct (p e); [discriminate | now apply IH].
Qed.

(** ** The CNAME walk *)

Section CnameWalk.

Context {W : Type} {env : Env W}.

(** One iteration of the loop, by what the name servers answer. *)
Lemma followCNAMEs_S (remaining : nat) (fqdn : string) (w : W)
      (tr : list Event) :
  followCNAMEs (S remaining) fqdn (mkState w tr) =
  let asked :=
    (tr ++ [EvQuery fqdn dns.TypeCNAME recursiveNameservers true])%list in
  match resolveCNAME fqdn w with
  | (inr _, w1) => (fqdn, mkState w1 asked)
  | (inl r, w1) =>
      if negb (dns.Rcode r =? dns.RcodeSuccess)%Z
      then (fqdn, mkState w1 asked)
      else
        let cname := updateDomainWithCName r fqdn in
        if (cname =? fqdn)%string then (fqdn, mkState w1 asked)
        else
          followCNAMEs remaining cname
            (mkState w1
               (asked
                  ++ [EvLog "Found CNAME entry for %q: %q" [fqdn; cname]]))
  end.
Proof.
  cbn [followCNAMEs]. unfold query, log_Infof.
  unfold bind, emit, extern, ret, resolveCNAME. cbn [world trace].
  destruct (dnsQuery fqdn dns.TypeCNAME recursiveNameservers true w)
    as [[r|e] w1]; [|reflexivity].
  destruct (negb _); [reflexivity|].
  destruct (_ =? _)%string; reflexivity.
Qed.

(** The walk only queries and logs, at most once each per iteration. *)
Lemma followCNAMEs_trace (remaining : nat) :
  forall (fqdn : string) (s : State W),
  exists evs : list Event,
    trace (snd (followCNAMEs remaining fqdn s)) = trace s ++ evs /\
    forallb walk_event evs = true /\
    (count is_query evs <= remaining)%nat /\
    (count is_advance evs <= remaining)%nat.
Proof.
  induction remaining as [|n IH]; intros fqdn [w tr].
  - exists []. cbn. rewrite app_nil_r. repeat split; auto.
  - rewrite followCNAMEs_S. cbv zeta.
    destruct (resolveCNAME fqdn w) as [[r|e] w1].
    + destruct (negb (dns.Rcode r =? dns.RcodeSuccess)%Z).
      { eexists [_]. cbn. repeat split; auto with arith. }
      destruct (updateDomainWithCName r fqdn =? fqdn)%string.
      { eexists [_]. cbn. repeat split; auto with arith. }
      match goal with
      | |- context [followCNAMEs n ?c ?s1] =>
          destruct (IH c s1) as [evs [Ht [Hw [Hq Ha]]]]
      end.
      rewrite Ht. cbn [trace]. rewrite <- !app_assoc.
      eexists. split; [reflexivity|].
      rewrite !forallb_app, !count_app. cbn. rewrite Hw.
      repeat split; lia.
    + eexists [_]. cbn. repeat split; auto with arith.
Qed.

(** A chain shorter than the iterations left is walked to its end. *)
Lemma followCNAMEs_chain
      (Hno : forall (r : dns.Msg) (fqdn : string),
          Cname.has_cname r = false ->
          updateDomainWithCName r fqdn = fqdn)
      (w : W) (n : string) (k : nat) (t : string) :
  cname_chain w n k t ->
  forall (remaining : nat) (tr : list Event),
    (k < remaining)%nat ->
    fst (followCNAMEs remaining n (mkState w tr)) = t.
Proof.
  induction 1 as [w n e w' Hq | w n r w' Hq Hr | w n r w' Hq Hc
                  | w n w' c k t [r [Hq [Hr [Hu Hne]]]] _ IH];
    intros [|remaining] tr Hlt; try lia;
    rewrite followCNAMEs_S, Hq; cbv zeta.
  - reflexivity.
  - apply Z.eqb_neq in Hr. rewrite Hr. reflexivity.
  - destruct (negb _); [reflexivity|].
    rewrite (Hno r n Hc), String.eqb_refl. reflexivity.
  - rewrite Hr, Z.eqb_refl. cbn [negb].
    rewrite Hu. apply String.eqb_neq in Hne. rewrite Hne.
    apply IH. lia.
Qed.

(** [k] hops in a row take [k] iterations, [k] queries and [k]
    advances. *)
Lemma followCNAMEs_hops (w : W) (n : string) (k : nat) (w' : W)
      (t : string) :
  cname_hops w n k w' t ->
  forall (remaining : nat) (tr : list Event),
  exists evs : list Event,
    followCNAMEs (k + remaining) n (mkState w tr) =
      followCNAMEs remaining t (mkState w' (tr ++ evs)) /\
    count is_query evs = k /\
    count is_advance evs = k.
Proof.
  induction 1 as [w n | w n w1 c k w' t [r [Hq [Hr [Hu Hne]]]] _ IH];
    intros remaining tr.
  - exists []. rewrite app_nil_r. repeat split.
  - cbn [Nat.add]. rewrite followCNAMEs_S, Hq. cbv zeta.
    rewrite Hr, Z.eqb_refl. cbn [negb].
    rewrite Hu. apply String.eqb_neq in Hne. rewrite Hne.
    match goal with
    | |- context [followCNAMEs (k + remaining) c (mkState w1 ?tr1)] =>
        destruct (IH remaining tr1) as [evs [He [Hcq Hca]]]
    end.
    rewrite He, <- !app_assoc.
    eexists. split; [reflexivity|].
    rewrite !count_app, Hcq, Hca. cbn. split; reflexivity.
Qed.

(** On a cycle there are as many hops in a row as one asks for. *)
Lemma cname_cycle_hops (cyc : list string) :
  cname_cycle cyc ->
  forall (k i : nat) (w : W),
    (i < List.length cyc)%nat ->
    exists (w' : W) (t : string),
      cname_hops w (nth i cyc EmptyString) k w' t.
Proof.
  intros Hcyc. induction k as [|k IH]; intros i w Hi.
  - exists w, (nth i cyc EmptyString). constructor.
  - destruct (Hcyc i w Hi) as [w1 Hhop].
    destruct (IH (S i mod List.length cyc)%nat w1) as [w' [t Hrest]].
    { apply Nat.mod_upper_bound. lia. }
    exists w', t. econstructor; eassumption.
Qed.

Lemma cname_hops_chain (w : W) (n : string) (j : nat) (w' : W)
      (m : string) :
  cname_hops w n j w' m ->
  forall (k : nat) (t : string),
    cname_chain w' m k t -> cname_chain w n (j + k) t.
Proof.
  induction 1 as [w n | w n w1 c j w' m Hhop _ IH]; intros k t Hc.
  - exact Hc.
  - cbn [Nat.add]. econstructor; [exact Hhop | now apply IH].
Qed.

Lemma getChallengeFQDN_no_follow (domain : string) (s : State W) :
  getChallengeFQDN domain false s =
  (("_acme-challenge." ++ domain ++ ".")%string, s).
Proof. reflexivity. Qed.

Lemma getChallengeFQDN_follow (domain : string) (s : State W) :
  getChallengeFQDN domain true s =
  followCNAMEs 50 ("_acme-challenge." ++ domain ++ ".") s.
Proof. reflexivity. Qed.

(** [GetChallengeInfo], by the value of the environment variable. *)
Lemma GetChallengeInfo_unfold (domain keyAuth : string) (w : W)
      (tr : list Event) :
  GetChallengeInfo domain keyAuth (mkState w tr) =
  let ok :=
    fst (Strconv.ParseBool (os_Getenv "LEGO_DISABLE_CNAME_SUPPORT" w)) in
  let r := getChallengeFQDN domain (negb ok) (mkState w tr) in
  ({| FQDN := "_acme-challenge." ++ domain ++ ".";
      EffectiveFQDN := fst r;
      Value := Base64.EncodeToString
                 (Sha256.Sum256 (bytes_of_string keyAuth)) |},
   snd r).
Proof.
  unfold GetChallengeInfo, bind, extern, ret. cbn [world trace].
  destruct (Strconv.ParseBool _) as [ok e]. cbn [fst].
  rewrite getChallengeFQDN_no_follow.
  destruct (getChallengeFQDN domain (negb ok) _) as [eff s2].
  cbn [fst snd]. now rewrite firstn_Size_Sum256.
Qed.

End CnameWalk.

Lemma Cname_no_cname (r : dns.Msg) (fqdn : string) :
  Cname.has_cname r = false -> Cname.updateDomainWithCName r fqdn = fqdn.
Proof.
  unfold Cname.has_cname, Cname.updateDomainWithCName.
  induction (dns.Answer r) as [|[hdr target|hdr] rest IH]; cbn; intros H.
  - reflexivity.
  - discriminate.
  - now apply IH.
Qed.

(** The chain of the test zone: two hops from the challenge name of
    example.com to a name without CNAME. *)
Lemma Mock_chain (w : Mock.World) :
  cname_chain (env := Mock.env) w "_acme-challenge.example.com." 2
              "target.example.org.".
Proof.
  apply chain_hop with (w' := w) (c := "alias.example.net."%string).
  { eexists. repeat split; [discriminate]. }
  apply chain_hop with (w' := w) (c := "target.example.org."%string).
  { eexists. repeat split; [discriminate]. }
  eapply chain_no_cname; reflexivity.
Qed.

(** The cycle of the test zone. *)
Lemma Mock_cycle :
  cname_cycle (env := Mock.env)
              ["_acme-challenge.loop.test."; "b.loop.test."]%string.
Proof.
  intros [|[|i]] w Hi; cbn in Hi; try lia; exists w; eexists;
    repeat split; discriminate.
Qed.

(** C2.  When the name servers present, from the challenge name, a CNAME
    chain of k < 50 hops that ends at a name whose query fails, or is
    answered with a code other than success, or is answered without a
    CNAME, getChallengeFQDN returns that last name.  A query that fails
    after j < 50 hops ends the chain there: the name reached is returned,
    and no error.  With CNAME support not disabled, this name is the
    EffectiveFQDN of GetChallengeInfo. *)
Theorem getChallengeFQDN_follows_chain :
  forall (W : Type) (env : Env W),
    (forall (r : dns.Msg) (fqdn : string),
        Cname.has_cname r = false -> updateDomainWithCName r fqdn = fqdn) ->
    forall (domain : string) (s : State W),
      (forall (k : nat) (t : string),
          (k < 50)%nat ->
          cname_chain (world s) ("_acme-challenge." ++ domain ++ ".") k t ->
          fst (getChallengeFQDN domain true s) = t /\
          (forall keyAuth : string,
              fst (Strconv.ParseBool
                     (os_Getenv "LEGO_DISABLE_CNAME_SUPPORT" (world s)))
                = false ->
              EffectiveFQDN (fst (GetChallengeInfo domain keyAuth s)) = t)) /\
      (forall (j : nat) (w' : W) (n : string) (e : error_value) (w'' : W),
          (j < 50)%nat ->
          cname_hops (world s) ("_acme-challenge." ++ domain ++ ".") j w' n ->
          resolveCNAME n w' = (inr e, w'') ->
          fst (getChallengeFQDN domain true s) = n).
Proof.
  intros W env Hno domain [w tr].
  assert (Hchain : forall (k : nat) (t : string),
             (k < 50)%nat ->
             cname_chain w ("_acme-challenge." ++ domain ++ ".") k t ->
             fst (getChallengeFQDN domain true (mkState w tr)) = t).
  { intros k t Hk Hc. rewrite getChallengeFQDN_follow.
    now apply (followCNAMEs_chain Hno w _ k t Hc). }
  cbn [world]. split.
  - intros k t Hk Hc. split; [now apply (Hchain k)|].
    intros keyAuth Hok. rewrite GetChallengeInfo_unfold. cbv zeta.
    rewrite Hok. cbn [fst negb EffectiveFQDN]. now apply (Hchain k).
  - intros j w' n e w'' Hj Hh Hq.
    apply (Hchain (j + 0)%nat); [lia|].
    apply (cname_hops_chain _ _ _ _ _ Hh).
    eapply chain_failed; exact Hq.
Qed.

Lemma getChallengeFQDN_follows_chain_witness :
  fst (getChallengeFQDN (env := Mock.env) "example.com" true Mock.start) =
    "target.example.org."%string /\
  EffectiveFQDN
    (fst (GetChallengeInfo (env := Mock.env) "example.com" "abc" Mock.start)) =
    "target.example.org."%string /\
  fst (getChallengeFQDN (env := Mock.env) "down.test" true Mock.start) =
    "_acme-challenge.down.test."%string.
Proof.
  destruct (getChallengeFQDN_follows_chain
              Mock.World Mock.env Cname_no_cname "example.com" Mock.start)
    as [Hchain _].
  destruct (Hchain 2%nat "target.example.org."%string)
    as [Hfqdn Heff]; [lia | apply Mock_chain |].
  destruct (getChallengeFQDN_follows_chain
              Mock.World Mock.env Cname_no_cname "down.test" Mock.start)
    as [_ Hfail].
  split; [exact Hfqdn|].
  split; [apply Heff; reflexivity|].
  eapply (Hfail 0%nat); [lia | apply hops_O | reflexivity].
Defined.

(** C3.  The CNAME walk always ends, whatever the name servers answer: it
    sends at most 50 queries and advances at most 50 times.  When the name
    servers present 50 hops in a row (a chain of 50 hops or more), and so
    on every cycle of CNAMEs, it sends exactly 50 queries, advances exactly
    50 times and returns the name reached by the 50th hop.  When the
    challenge name is a CNAME of itself, it stops at the first query,
    without advancing. *)
Theorem getChallengeFQDN_at_most_50_hops :
  forall (W : Type) (env : Env W) (domain : string) (s : State W),
    let fqdn := ("_acme-challenge." ++ domain ++ ".")%string in
    let r := getChallengeFQDN domain true s in
    let evs := emitted s (snd r) in
    ((count is_query evs <= 50)%nat /\ (count is_advance evs <= 50)%nat) /\
    (forall (w' : W) (t : string),
        cname_hops (world s) fqdn 50 w' t ->
        fst r = t /\
        count is_query evs = 50%nat /\ count is_advance evs = 50%nat) /\
    (forall (cyc : list string) (i : nat),
        cname_cycle cyc ->
        (i < List.length cyc)%nat ->
        nth i cyc EmptyString = fqdn ->
        count is_query evs = 50%nat /\ count is_advance evs = 50%nat) /\
    (self_reference (world s) fqdn ->
     fst r = fqdn /\
     count is_query evs = 1%nat /\ count is_advance evs = 0%nat).
Proof.
  intros W env domain [w tr]. cbv zeta. cbn [world].
  rewrite getChallengeFQDN_follow.
  generalize ("_acme-challenge." ++ domain ++ ".")%string. intros fqdn.
  assert (Hhops : forall (w' : W) (t : string),
             cname_hops w fqdn 50 w' t ->
             let r := followCNAMEs 50 fqdn (mkState w tr) in
             fst r = t /\
             count is_query (emitted (mkState w tr) (snd r)) = 50%nat /\
             count is_advance (emitted (mkState w tr) (snd r)) = 50%nat).
  { intros w' t Hh.
    destruct (followCNAMEs_hops w fqdn 50 w' t Hh 0%nat tr)
      as [new [Hrun [Hq Ha]]].
    change (followCNAMEs 50 fqdn) with (followCNAMEs (50 + 0) fqdn).
    rewrite Hrun. cbn [followCNAMEs ret fst snd].
    rewrite (emitted_app _ _ new) by reflexivity. auto. }
  split; [|split; [exact Hhops|split]].
  - destruct (followCNAMEs_trace 50 fqdn (mkState w tr))
      as [new [Ht [_ [Hq Ha]]]].
    rewrite (emitted_app _ _ new Ht). auto.
  - intros cyc i Hcyc Hi Hstart.
    destruct (cname_cycle_hops cyc Hcyc 50 i w Hi) as [w' [t Hh]].
    rewrite Hstart in Hh. exact (proj2 (Hhops w' t Hh)).
  - intros [m [w' [Hq [Hr [_ Hu]]]]].
    rewrite followCNAMEs_S, Hq. cbv zeta.
    rewrite Hr, Z.eqb_refl, Hu, String.eqb_refl. cbn [negb fst snd].
    rewrite (emitted_app _ _ [EvQuery fqdn dns.TypeCNAME
                                recursiveNameservers true])
      by reflexivity.
    repeat split.
Qed.

Lemma getChallengeFQDN_at_most_50_hops_witness :
  (let evs :=
     emitted Mock.start
       (snd (getChallengeFQDN (env := Mock.env) "loop.test" true
                              Mock.start)) in
   count is_query evs = 50%nat /\ count is_advance evs = 50%nat) /\
  (let r := getChallengeFQDN (env := Mock.env) "self.test" true Mock.start in
   fst r = "_acme-challenge.self.test."%string /\
   count is_query (emitted Mock.start (snd r)) = 1%nat /\
   count is_advance (emitted Mock.start (snd r)) = 0%nat).
Proof.
  split.
  - destruct (getChallengeFQDN_at_most_50_hops
                Mock.World Mock.env "loop.test" Mock.start)
      as [_ [_ [Hcycle _]]].
    apply (Hcycle ["_acme-challenge.loop.test."; "b.loop.test."]%string
                  0%nat Mock_cycle); [cbn; lia | reflexivity].
  - destruct (getChallengeFQDN_at_most_50_hops
                Mock.World Mock.env "self.test" Mock.start)
      as [_ [_ [_ Hself]]].
    apply Hself. eexists. eexists. repeat split.
Defined.

(** C5.  When LEGO_DISABLE_CNAME_SUPPORT holds a value that
    strconv.ParseBool reads as true, GetChallengeInfo returns equal FQDN
    and EffectiveFQDN whatever the name servers would answer, and it sends
    no query: it leaves the state as it found it. *)
Theorem GetChallengeInfo_cname_disabled :
  forall (W : Type) (env : Env W) (domain keyAuth : string) (s : State W),
    fst (Strconv.ParseBool
           (os_Getenv "LEGO_DISABLE_CNAME_SUPPORT" (world s))) = true ->
    EffectiveFQDN (fst (GetChallengeInfo domain keyAuth s)) =
      FQDN (fst (GetChallengeInfo domain keyAuth s)) /\
    snd (GetChallengeInfo domain keyAuth s) = s /\
    count is_query (emitted s (snd (GetChallengeInfo domain keyAuth s)))
      = 0%nat.
Proof.
  intros W env domain keyAuth [w tr] Hok. cbn [world] in Hok.
  rewrite GetChallengeInfo_unfold. cbv zeta. rewrite Hok.
  cbn [negb]. rewrite getChallengeFQDN_no_follow.
  cbn [fst snd EffectiveFQDN FQDN].
  rewrite (emitted_app _ _ []) by (now rewrite app_nil_r).
  repeat split.
Qed.

Lemma GetChallengeInfo_cname_disabled_witness :
  EffectiveFQDN
    (fst (GetChallengeInfo (env := Mock.env) "example.com" "abc"
                           Mock.start_disabled)) =
    "_acme-challenge.example.com."%string /\
  snd (GetChallengeInfo (env := Mock.env) "example.com" "abc"
                        Mock.start_disabled) = Mock.start_disabled.
Proof.
  destruct (GetChallengeInfo_cname_disabled
              Mock.World Mock.env "example.com" "abc" Mock.start_disabled)
    as [Heq [Hs _]]; [reflexivity|].
  split; [rewrite Heq; reflexivity | exact Hs].
Defined.

(** C6.  For every domain and keyAuthorization, the FQDN of the
    ChallengeInfo that GetChallengeInfo returns is "_acme-challenge.",
    the domain and "." put together, whatever the name servers answer and
    whatever LEGO_DISABLE_CNAME_SUPPORT holds. *)
Theorem GetChallengeInfo_FQDN :
  forall (W : Type) (env : Env W) (domain keyAuth : string) (s : State W),
    FQDN (fst (GetChallengeInfo domain keyAuth s)) =
    ("_acme-challenge." ++ domain ++ ".")%string.
Proof.
  intros W env domain keyAuth [w tr].
  rewrite GetChallengeInfo_unfold. reflexivity.
Qed.

(** C10.  GetRecord is a projection of GetChallengeInfo: run in the same
    state, it returns the EffectiveFQDN and the Value of the ChallengeInfo
    that GetChallengeInfo returns, and leaves the same state behind. *)
Theorem GetRecord_projects_GetChallengeInfo :
  forall (W : Type) (env : Env W) (domain keyAuth : string) (s : State W),
    fst (GetRecord domain keyAuth s) =
      (EffectiveFQDN (fst (GetChallengeInfo domain keyAuth s)),
       Value (fst (GetChallengeInfo domain keyAuth s))) /\
    snd (GetRecord domain keyAuth s) = snd (GetChallengeInfo domain keyAuth s).
Proof.
  intros W env domain keyAuth s. unfold GetRecord, bind, ret.
  destruct (GetChallengeInfo domain keyAuth s) as [info s']. split; reflexivity.
Qed.

(** ** The lifecycle *)

(** C9.  Sequential reports the provider's capability: (true, D) when the
    provider has the Sequential method and it gives D, (false, 0) when the
    provider does not have it, or when there is no provider. *)
Theorem Sequential_reports_capability :
  forall (W : Type) (c : Challenge W),
    (forall (p : challenge.Provider W) (D : Duration),
        provider c = Some p ->
        challenge.Sequential p = Some D ->
        Sequential c = (true, D)) /\
    (forall p : challenge.Provider W,
        provider c = Some p ->
        challenge.Sequential p = None ->
        Sequential c = (false, 0)) /\
    (provider c = None -> Sequential c = (false, 0)).
Proof.
  intros W c. unfold Sequential. repeat split.
  - intros p D Hp HD. now rewrite Hp, HD.
  - intros p Hp HD. now rewrite Hp, HD.
  - intros Hp. now rewrite Hp.
Qed.

Lemma Sequential_reports_capability_witness :
  Sequential (Mock.mkChallenge (Some Mock.failing_provider) Mock.never) =
    (true, 5 * Second) /\
  Sequential (Mock.mkChallenge (Some Mock.plain_provider) Mock.never) =
    (false, 0) /\
  Sequential (Mock.mkChallenge None Mock.never) = (false, 0).
Proof.
  split; [|split].
  - apply (proj1 (Sequential_reports_capability _ _) Mock.failing_provider);
      reflexivity.
  - apply (proj1 (proj2 (Sequential_reports_capability _ _))
                 Mock.plain_provider); reflexivity.
  - apply (proj2 (proj2 (Sequential_reports_capability _ _))). reflexivity.
Defined.

Lemma prefix_app (d rest : string) : String.prefix d (d ++ rest) = true.
Proof.
  induction d as [|a d IH]; cbn.
  - now destruct rest.
  - destruct (ascii_dec a a) as [_|Hne]; [exact IH | now elim Hne].
Qed.

Lemma contains_prefix (sub s : string) :
  String.prefix sub s = true -> contains sub s = true.
Proof. intros H. destruct s; cbn [contains]; now rewrite H. Qed.

Lemma contains_bracketed (d rest : string) :
  contains d ("[" ++ d ++ rest) = true.
Proof.
  cbn [append contains]. rewrite (contains_prefix d (d ++ rest)).
  - apply orb_true_r.
  - apply prefix_app.
Qed.

(** C7, at a provider whose CleanUp fails with the error "boom" for the
    domain example.com: CleanUp returns this very error, and its message
    does not name the domain. *)
Lemma CleanUp_error_without_domain :
  let c := Mock.mkChallenge (Some Mock.failing_provider) Mock.never in
  let authz := Mock.authz "example.com" in
  GetTargetedDomain (Env := Mock.env) authz = "example.com"%string /\
  fst (challenge.CleanUp Mock.failing_provider "example.com" "tok-dns"
                         "tok-dns.thumbprint" (world Mock.start)) =
    Some (errors_New "boom") /\
  fst (CleanUp (env := Mock.env) c authz Mock.start) =
    Returned (Some (errors_New "boom")) /\
  carries_domain "example.com" (errors_New "boom") = false.
Proof. repeat split. Qed.

(** C7, as the code has it.  When Provider.Present fails in PreSolve, the
    error returned to the caller wraps the provider's error and its message
    starts with the targeted domain in brackets.  When Provider.CleanUp
    fails in CleanUp, the provider's error is returned to the caller as it
    is. *)
Theorem provider_errors_returned :
  forall (W : Type) (env : Env W) (c : Challenge W)
         (authz : acme.Authorization) (s : State W)
         (p : challenge.Provider W) (chlng : acme.Challenge)
         (keyAuth : string),
    FindChallenge challenge.DNS01 authz = (chlng, None) ->
    provider c = Some p ->
    api.GetKeyAuthorization (core c) (acme.Token chlng) = (keyAuth, None) ->
    (forall (e : error_value) (w' : W),
        challenge.Present p (acme.Value (acme.Identifier_ authz))
                          (acme.Token chlng) keyAuth (world s) = (Some e, w') ->
        exists wrapped : error_value,
          fst (PreSolve c authz s) = Some wrapped /\
          Error wrapped =
            ("[" ++ GetTargetedDomain authz
                 ++ "] acme: error presenting token: " ++ Error e)%string /\
          Unwrap wrapped = Some e /\
          carries_domain (GetTargetedDomain authz) wrapped = true) /\
    (forall (e : error_value) (w' : W),
        challenge.CleanUp p (acme.Value (acme.Identifier_ authz))
                          (acme.Token chlng) keyAuth (world s) = (Some e, w') ->
        fst (CleanUp c authz s) = Returned (Some e)).
Proof.
  intros W env c authz [w tr] p chlng keyAuth Hfind Hp Hkey. split.
  - intros e w' Hpresent. cbn [world] in Hpresent.
    unfold PreSolve, log_Infof. unfold bind, emit, extern, ret.
    rewrite Hfind. cbv beta iota. rewrite Hp, Hkey. cbv beta iota.
    cbn [world trace]. rewrite Hpresent. cbn [fst].
    eexists. split; [reflexivity|]. cbn [Error Unwrap]. repeat split.
    unfold carries_domain. cbn [Error]. apply contains_bracketed.
  - intros e w' Hclean. cbn [world] in Hclean.
    unfold CleanUp, log_Infof. unfold bind, emit, extern, ret.
    rewrite Hfind. cbv beta iota. rewrite Hkey, Hp. cbv beta iota.
    cbn [world trace]. rewrite Hclean. reflexivity.
Qed.

Lemma provider_errors_returned_witness :
  let c := Mock.mkChallenge (Some Mock.failing_provider) Mock.never in
  let authz := Mock.authz "example.com" in
  (exists wrapped : error_value,
      fst (PreSolve (env := Mock.env) c authz Mock.start) = Some wrapped /\
      Error wrapped =
        "[example.com] acme: error presenting token: boom"%string /\
      Unwrap wrapped = Some (errors_New "boom") /\
      carries_domain "example.com" wrapped = true) /\
  fst (CleanUp (env := Mock.env) c authz Mock.start) =
    Returned (Some (errors_New "boom")).
Proof.
  intros c authz.
  destruct (provider_errors_returned
              Mock.World Mock.env c authz Mock.start Mock.failing_provider
              {| acme.URL := "https://acme.test/chall/2";
                 acme.Type_ := "dns-01"; acme.Status := "pending";
                 acme.Token := "tok-dns"; acme.KeyAuthorization := "" |}
              "tok-dns.thumbprint")
    as [Hpresent Hclean]; [reflexivity | reflexivity | reflexivity |].
  split.
  - exact (Hpresent (errors_New "boom") (world Mock.start) eq_refl).
  - exact (Hclean (errors_New "boom") (world Mock.start) eq_refl).
Defined.

(** ** Polling *)

Lemma alternates_quiet (interval : Duration) (evs : list Event) :
  forallb quiet evs = true ->
  forall (sleep_next : bool) (rest : list Event),
    alternates interval sleep_next (evs ++ rest) =
    alternates interval sleep_next rest.
Proof.
  induction evs as [|e evs IH]; intros H b rest; [reflexivity|].
  cbn [forallb] in H. apply andb_prop in H. destruct H as [He Hevs].
  destruct e; try discriminate He; cbn [app alternates]; now apply IH.
Qed.

Lemma walk_event_quiet (evs : list Event) :
  forallb walk_event evs = true -> forallb quiet evs = true.
Proof.
  induction evs as [|e evs IH]; [reflexivity|]. cbn [forallb].
  intros H. apply andb_prop in H. destruct H as [He Hevs].
  rewrite (IH Hevs), andb_true_r. now destruct e.
Qed.

Lemma quiet_no_validate (evs : list Event) :
  forallb quiet evs = true ->
  forallb (fun e => negb (is_validate e)) evs = true.
Proof.
  induction evs as [|e evs IH]; [reflexivity|]. cbn [forallb].
  intros H. apply andb_prop in H. destruct H as [He Hevs].
  rewrite (IH Hevs), andb_true_r. now destruct e.
Qed.

(** A propagation check is preceded by a sleep of the interval, with
    neither sleep nor check in between, unless the list may start with a
    check and nothing but other events come before it. *)
Lemma alternates_before_check (interval : Duration) (pre : list Event) :
  forall (sleep_next : bool) (domain fqdn value : string)
         (post : list Event),
    alternates interval sleep_next
               (pre ++ EvPreCheck domain fqdn value :: post) = true ->
    (sleep_next = false /\
     forallb (fun e => negb (is_timing e)) pre = true) \/
    (exists before mid : list Event,
        pre = before ++ EvSleep interval :: mid /\
        forallb (fun e => negb (is_timing e)) mid = true).
Proof.
  induction pre as [|e pre IH]; intros b domain fqdn value post H.
  - left. cbn in H. destruct b; [discriminate | auto].
  - cbn [app] in H.
    assert (Hright : forall b' : bool,
               b' = true \/ e = EvSleep interval ->
               alternates interval b'
                 (pre ++ EvPreCheck domain fqdn value :: post) = true ->
               exists before mid : list Event,
                 e :: pre = before ++ EvSleep interval :: mid /\
                 forallb (fun e => negb (is_timing e)) mid = true).
    { intros b' Hb' H'.
      destruct (IH b' domain fqdn value post H')
        as [[Hf Hpre] | [before [mid [Hpre Hmid]]]].
      - destruct Hb' as [Hb' | He]; [congruence|].
        exists [], pre. subst e. split; [reflexivity | exact Hpre].
      - exists (e :: before), mid. split; [now rewrite Hpre | exact Hmid]. }
    assert (Hother : is_timing e = false ->
               alternates interval b
                 (pre ++ EvPreCheck domain fqdn value :: post) = true ->
               (b = false /\
                forallb (fun e => negb (is_timing e)) (e :: pre) = true) \/
               (exists before mid : list Event,
                   e :: pre = before ++ EvSleep interval :: mid /\
                   forallb (fun e => negb (is_timing e)) mid = true)).
    { intros He H'.
      destruct (IH b domain fqdn value post H')
        as [[Hf Hpre] | [before [mid [Hpre Hmid]]]].
      - left. split; [exact Hf|]. cbn [forallb]. now rewrite He, Hpre.
      - right. exists (e :: before), mid.
        split; [now rewrite Hpre | exact Hmid]. }
    destruct e; cbn [alternates] in H;
      try (apply Hother; [reflexivity | exact H]).
    + apply andb_prop in H. destruct H as [H1 H].
      apply andb_prop in H1. destruct H1 as [_ Hd].
      apply Z.eqb_eq in Hd. subst d.
      right. apply (Hright false); [now right | exact H].
    + apply andb_prop in H. destruct H as [_ H].
      right. apply (Hright true); [now left | exact H].
Qed.

Section Polling.

Context {W : Type} {env : Env W}.

Lemma propagation_check_run (c : Challenge W) (domain : string)
      (info : ChallengeInfo) (w : W) (tr : list Event) :
  propagation_check c domain info (mkState w tr) =
  let (r, w1) :=
    call (preCheck_ c) domain (EffectiveFQDN info) (Value info) w in
  (r, mkState w1
        (tr ++ EvPreCheck domain (EffectiveFQDN info) (Value info)
            :: waiting_log domain r)).
Proof.
  unfold propagation_check, log_Infof, waiting_log.
  unfold bind, emit, extern, ret. cbn [world trace].
  destruct (call _ _ _ _ _) as [[stop errP] w1]. cbn [fst snd].
  destruct (negb stop || is_error errP); cbn [trace world].
  - now rewrite <- app_assoc.
  - reflexivity.
Qed.

(** One tick of the polling loop. *)
Lemma poll_S (ticks : nat) (label : string) (deadline : Z)
      (interval : Duration) (check : M W (bool * error)) (s : State W) :
  wait.poll (S ticks) label deadline interval check s =
  let (r, s1) := check s in
  if fst r then (Returned None, s1)
  else if (time_Now (world s1) <? deadline)%Z
  then wait.poll ticks label deadline interval check
         (mkState (time_Sleep interval (world s1))
                  (trace s1 ++ [EvSleep interval]))
  else (Returned (Some match snd r with
                       | Some e => e
                       | None => wait_timeout_error label
                       end), s1).
Proof.
  cbn [wait.poll]. unfold Now, Sleep. unfold bind, emit, extern, ret.
  cbv beta.
  destruct (check s) as [[satisfied err] [w1 tr1]].
  cbv beta iota delta [fst snd world trace].
  destruct satisfied; [reflexivity|].
  destruct (time_Now w1 <? deadline)%Z; [reflexivity|].
  now destruct err.
Qed.

Lemma waiting_log_quiet (domain : string) (r : bool * error) :
  forallb quiet (waiting_log domain r) = true.
Proof. unfold waiting_log. now destruct (negb _ || _). Qed.

(** The polling loop starts with a check, sleeps the interval between
    two checks, and never calls the validator. *)
Lemma poll_trace (c : Challenge W) (domain : string) (info : ChallengeInfo)
      (label : string) (deadline : Z) (interval : Duration)
      (ticks : nat) :
  forall s : State W,
  exists evs : list Event,
    trace (snd (wait.poll ticks label deadline interval
                          (propagation_check c domain info) s)) =
      trace s ++ evs /\
    alternates interval false evs = true /\
    forallb (fun e => negb (is_validate e)) evs = true.
Proof.
  induction ticks as [|ticks IH]; intros [w tr].
  - exists []. cbn. now rewrite app_nil_r.
  - rewrite poll_S, propagation_check_run.
    destruct (call _ _ _ _ _) as [r w1].
    pose proof (waiting_log_quiet domain r) as Hlog.
    assert (Hdone :
              exists evs : list Event,
                tr ++ EvPreCheck domain (EffectiveFQDN info) (Value info)
                   :: waiting_log domain r = tr ++ evs /\
                alternates interval false evs = true /\
                forallb (fun e => negb (is_validate e)) evs = true).
    { eexists. split; [reflexivity|]. cbn [alternates negb andb forallb
                                             is_validate].
      split; [|now apply quiet_no_validate].
      rewrite <- (app_nil_r (waiting_log domain r)).
      now rewrite alternates_quiet. }
    destruct (fst r); [exact Hdone|]. cbn [world trace].
    destruct (time_Now w1 <? deadline)%Z; [|exact Hdone].
    match goal with
    | |- context [wait.poll ticks _ _ _ _ ?s1] =>
        destruct (IH s1) as [evs [Ht [Halt Hval]]]
    end.
    rewrite Ht. cbn [trace].
    exists (EvPreCheck domain (EffectiveFQDN info) (Value info)
              :: waiting_log domain r ++ EvSleep interval :: evs).
    split; [|split].
    + rewrite <- !app_assoc. reflexivity.
    + cbn [alternates negb andb]. rewrite alternates_quiet by exact Hlog.
      cbn [alternates andb]. now rewrite Z.eqb_refl.
    + cbn [forallb is_validate negb andb]. rewrite forallb_app.
      rewrite (quiet_no_validate _ Hlog). cbn [forallb is_validate negb andb].
      exact Hval.
Qed.

(** [GetChallengeInfo] only queries and logs. *)
Lemma GetChallengeInfo_trace (domain keyAuth : string) (s : State W) :
  exists evs : list Event,
    trace (snd (GetChallengeInfo domain keyAuth s)) = trace s ++ evs /\
    forallb walk_event evs = true.
Proof.
  destruct s as [w tr]. rewrite GetChallengeInfo_unfold. cbv zeta.
  cbn [snd]. destruct (negb _).
  - rewrite getChallengeFQDN_follow.
    destruct (followCNAMEs_trace
                50 ("_acme-challenge." ++ domain ++ ".") (mkState w tr))
      as [evs [Ht [Hw _]]].
    exists evs. split; assumption.
  - rewrite getChallengeFQDN_no_follow. exists []. cbn.
    now rewrite app_nil_r.
Qed.

(** [Solve] up to the end of the wait: the local [chlng] is the challenge
    found, a sleep of the interval comes before each check, and the
    validator is not called. *)
Lemma Solve_poll_trace (ticks : nat) (c : Challenge W)
      (authz : acme.Authorization) (s : State W) :
  (match fst (Solve_poll ticks c authz s) with
   | Early _ chlng => chlng
   | Polled _ chlng _ _ => chlng
   end = fst (FindChallenge challenge.DNS01 authz)) /\
  exists evs : list Event,
    trace (snd (Solve_poll ticks c authz s)) = trace s ++ evs /\
    alternates (snd (propagation_timing c)) true evs = true /\
    forallb (fun e => negb (is_validate e)) evs = true.
Proof.
  destruct s as [w tr].
  unfold Solve_poll, wait.For, Now, Sleep, log_Infof.
  unfold bind, emit, extern, ret. cbv beta. cbn [world trace].
  destruct (FindChallenge challenge.DNS01 authz) as [chlng [e|]].
  { cbn [fst snd trace]. split; [reflexivity|]. now eexists [_]. }
  destruct (api.GetKeyAuthorization _ _) as [keyAuth [e|]].
  { cbn [fst snd trace]. split; [reflexivity|]. now eexists [_]. }
  match goal with
  | |- context [GetChallengeInfo ?d ?k ?s0] =>
      destruct (GetChallengeInfo_trace d k s0) as [evs1 [Ht1 Hw1]];
      destruct (GetChallengeInfo d k s0) as [info [w2 tr2]]
  end.
  cbn [snd trace] in Ht1. subst tr2.
  destruct (propagation_timing c) as [timeout interval].
  cbv beta iota delta [fst snd world trace].
  match goal with
  | |- context [wait.poll ticks ?l ?d ?i ?f ?s1] =>
      destruct (poll_trace c (GetTargetedDomain authz) info l d i ticks s1)
        as [evs2 [Ht2 [Halt Hval]]];
      destruct (wait.poll ticks l d i f s1) as [r [w3 tr3]]
  end.
  cbn [snd trace] in Ht2. subst tr3. split; [reflexivity|].
  eexists. split; [rewrite <- !app_assoc; reflexivity|].
  apply walk_event_quiet in Hw1. split.
  - cbn [app alternates]. rewrite alternates_quiet by exact Hw1.
    cbn [app alternates andb]. now rewrite Z.eqb_refl.
  - cbn [app forallb is_validate negb andb]. rewrite forallb_app.
    rewrite (quiet_no_validate _ Hw1).
    cbn [app forallb is_validate negb andb]. exact Hval.
Qed.

End Polling.

Lemma alternates_no_timing (interval : Duration) (evs : list Event) :
  forallb (fun e => negb (is_timing e)) evs = true ->
  forall sleep_next : bool, alternates interval sleep_next evs = true.
Proof.
  induction evs as [|e evs IH]; intros H b; [reflexivity|].
  cbn [forallb] in H. apply andb_prop in H. destruct H as [He Hevs].
  destruct e; try discriminate He; cbn [alternates]; now apply IH.
Qed.

Lemma alternates_then_no_timing (interval : Duration) (evs tail : list Event) :
  forallb (fun e => negb (is_timing e)) tail = true ->
  forall sleep_next : bool,
    alternates interval sleep_next evs = true ->
    alternates interval sleep_next (evs ++ tail) = true.
Proof.
  intros Htail. induction evs as [|e evs IH]; intros b H.
  - now apply alternates_no_timing.
  - destruct e; cbn [app alternates] in *; try (now apply IH);
      apply andb_prop in H; destruct H as [H1 H2];
      rewrite H1; now apply IH.
Qed.

Section SolveProperties.

Context {W : Type} {env : Env W}.

Lemma Solve_run (ticks : nat) (c : Challenge W)
      (authz : acme.Authorization) (s : State W) :
  Solve ticks c authz s =
  (fst (fst (Solve_frame ticks c authz s)),
   snd (Solve_frame ticks c authz s)).
Proof.
  unfold Solve, bind, ret. now destruct (Solve_frame ticks c authz s).
Qed.

(** When the wait has returned an error, [Solve] returns it at once. *)
Lemma Solve_frame_error (ticks : nat) (c : Challenge W)
      (authz : acme.Authorization) (s s1 : State W) (domain : string)
      (chlng : acme.Challenge) (keyAuth : string) (e : error_value) :
  Solve_poll ticks c authz s =
    (Polled domain chlng keyAuth (Returned (Some e)), s1) ->
  Solve_frame ticks c authz s = (Returned (Some e), chlng, s1).
Proof. intros H. unfold Solve_frame, bind, ret. now rewrite H. Qed.

(** The events of [Solve]: each check comes after a sleep of the
    interval. *)
Lemma Solve_frame_trace (ticks : nat) (c : Challenge W)
      (authz : acme.Authorization) (s : State W) :
  exists evs : list Event,
    trace (snd (Solve_frame ticks c authz s)) = trace s ++ evs /\
    alternates (snd (propagation_timing c)) true evs = true.
Proof.
  destruct (Solve_poll_trace ticks c authz s)
    as [_ [evs [Ht [Halt _]]]].
  unfold Solve_frame, bind, ret, emit, extern.
  destruct (Solve_poll ticks c authz s) as [p [w1 tr1]].
  cbn [snd trace] in Ht. subst tr1.
  destruct p as [e chlng | domain chlng keyAuth [[e|] | |]];
    cbn [snd trace world];
    try (exists evs; split; [reflexivity | exact Halt]).
  destruct (validate c _ _ _ _) as [err w2]. cbn [snd trace].
  eexists. split; [rewrite <- app_assoc; reflexivity|].
  now apply alternates_then_no_timing.
Qed.

End SolveProperties.

(** C4.  When the propagation wait of Solve returns an error, Solve returns
    this error and does nothing more: it ends in the state the wait left,
    its local challenge is the one FindChallenge gave, without the
    KeyAuthorization, and no call of the validator is among its events. *)
Theorem Solve_error_skips_validate :
  forall (W : Type) (env : Env W) (ticks : nat) (c : Challenge W)
         (authz : acme.Authorization) (s s1 : State W) (domain : string)
         (chlng : acme.Challenge) (keyAuth : string) (e : error_value),
    Solve_poll ticks c authz s =
      (Polled domain chlng keyAuth (Returned (Some e)), s1) ->
    Solve ticks c authz s = (Returned (Some e), s1) /\
    Solve_frame ticks c authz s = (Returned (Some e), chlng, s1) /\
    chlng = fst (FindChallenge challenge.DNS01 authz) /\
    count is_validate (emitted s (snd (Solve ticks c authz s))) = 0%nat.
Proof.
  intros W env ticks c authz s s1 domain chlng keyAuth e Hpoll.
  pose proof (Solve_frame_error ticks c authz s s1 domain chlng keyAuth e
                                Hpoll) as Hframe.
  destruct (Solve_poll_trace ticks c authz s) as [Hchlng [evs [Ht [_ Hval]]]].
  rewrite Hpoll in Hchlng, Ht. cbn [fst snd] in Hchlng, Ht.
  rewrite Solve_run, Hframe. cbn [fst snd].
  repeat split; [exact Hchlng|].
  rewrite (emitted_app _ _ evs Ht). now apply count_none.
Qed.

Lemma Solve_error_skips_validate_witness :
  let c := Mock.mkChallenge (Some Mock.failing_provider) Mock.never in
  let authz := Mock.authz "example.com" in
  fst (Solve (env := Mock.env) 10 c authz Mock.start) =
    Returned (Some (errors_New "propagation: time limit exceeded")) /\
  acme.KeyAuthorization
    (snd (fst (Solve_frame (env := Mock.env) 10 c authz Mock.start))) =
    EmptyString /\
  count is_validate
        (emitted Mock.start (snd (Solve (env := Mock.env) 10 c authz
                                        Mock.start))) = 0%nat.
Proof.
  intros c authz.
  destruct (Solve_error_skips_validate
              Mock.World Mock.env 10 c authz Mock.start
              (snd (Solve_poll (env := Mock.env) 10 c authz Mock.start))
              "example.com"
              {| acme.URL := "https://acme.test/chall/2";
                 acme.Type_ := "dns-01"; acme.Status := "pending";
                 acme.Token := "tok-dns"; acme.KeyAuthorization := "" |}
              "tok-dns.thumbprint"
              (errors_New "propagation: time limit exceeded"))
    as [Hsolve [Hframe [_ Hcount]]]; [vm_compute; reflexivity|].
  split; [now rewrite Hsolve | split; [now rewrite Hframe | exact Hcount]].
Defined.

(** C8.  In every run of Solve, with its polling as the specification
    describes it, a sleep of one polling interval comes before the first
    propagation check and between any two checks: before each check among
    the events of Solve there is a sleep of the interval, with no other
    check and no other sleep between the two. *)
Theorem Solve_sleeps_before_each_check :
  forall (W : Type) (env : Env W) (ticks : nat) (c : Challenge W)
         (authz : acme.Authorization) (s : State W),
    let interval := snd (propagation_timing c) in
    let evs := emitted s (snd (Solve ticks c authz s)) in
    paced interval evs = true /\
    (forall (pre : list Event) (domain fqdn value : string)
            (post : list Event),
        evs = pre ++ EvPreCheck domain fqdn value :: post ->
        exists before mid : list Event,
          pre = before ++ EvSleep interval :: mid /\
          forallb (fun e => negb (is_timing e)) mid = true).
Proof.
  intros W env ticks c authz s interval evs.
  destruct (Solve_frame_trace ticks c authz s) as [new [Ht Halt]].
  assert (Hevs : evs = new).
  { subst evs. rewrite Solve_run. cbn [snd]. now apply emitted_app. }
  rewrite Hevs. split; [exact Halt|].
  intros pre domain fqdn value post Hsplit. rewrite Hsplit in Halt.
  destruct (alternates_before_check _ _ _ _ _ _ _ Halt)
    as [[Hfalse _] | Hsleep]; [discriminate | exact Hsleep].
Qed.

Lemma Solve_sleeps_before_each_check_witness :
  let c := Mock.mkChallenge None (Mock.from (4 * Second)) in
  let run := Solve (env := Mock.env) 10 c (Mock.authz "example.com")
                   Mock.start in
  paced DefaultPollingInterval (emitted Mock.start (snd run)) = true /\
  exists before mid : list Event,
    firstn 8 (emitted Mock.start (snd run)) =
      before ++ EvSleep DefaultPollingInterval :: mid /\
    forallb (fun e => negb (is_timing e)) mid = true.
Proof.
  intros c run.
  destruct (Solve_sleeps_before_each_check
              Mock.World Mock.env 10 c (Mock.authz "example.com") Mock.start)
    as [Hpaced Hbefore].
  split; [exact Hpaced|].
  apply (Hbefore (firstn 8 (emitted Mock.start (snd run)))
                 "example.com"%string "target.example.org."%string
                 "wJeUC0ip9lff-ASs7hE071rY04iobSyzNcdUrVrnpkM"%string
                 (skipn 9 (emitted Mock.start (snd run)))).
  vm_compute. reflexivity.
Defined.

(** The sleeps and checks of a run of the test double, in which the third
    check sees the record. *)
Example Solve_mock_timing :
  let c := Mock.mkChallenge (Some Mock.failing_provider)
                            (Mock.from (3 * Second)) in
  let run := Solve (env := Mock.env) 10 c (Mock.authz "example.com")
                   Mock.start in
  fst run = Returned None /\
  map (fun e => match e with EvSleep d => Some d | _ => None end)
      (filter is_timing (trace (snd run))) =
    [Some Second; None; Some Second; None; Some Second; None] /\
  count is_validate (trace (snd run)) = 1%nat.
Proof. vm_compute. repeat split. Qed.

(** * More properties of the code *)

(** ** The CNAME walk, for any resolver *)

Section WalkSoundness.

Context {W : Type} {env : Env W}.

(** Whatever the name servers answer, the name the loop returns is reached
    by hops from the name it starts with; it counts one advance per hop and
    one query per hop, and one more when it stops before its iterations
    are used up. *)
Lemma followCNAMEs_reaches (remaining : nat) :
  forall (fqdn : string) (w : W) (tr : list Event),
  exists (k : nat) (w' : W) (evs : list Event),
    (k <= remaining)%nat /\
    cname_hops w fqdn k w'
               (fst (followCNAMEs remaining fqdn (mkState w tr))) /\
    ((k < remaining)%nat ->
     walk_stops w' (fst (followCNAMEs remaining fqdn (mkState w tr)))) /\
    trace (snd (followCNAMEs remaining fqdn (mkState w tr))) = tr ++ evs /\
    count is_advance evs = k /\
    count is_query evs = (if (k <? remaining)%nat then S k else k) /\
    Forall walk_written evs /\
    (evs = [] \/
     exists rest : list Event,
       evs = EvQuery fqdn dns.TypeCNAME recursiveNameservers true :: rest).
Proof.
  induction remaining as [|n IH]; intros fqdn w tr.
  - exists 0%nat, w, []. cbn. rewrite app_nil_r.
    repeat split; auto; try lia. constructor.
  - rewrite followCNAMEs_S. cbv zeta.
    assert (Hstop : walk_stops w fqdn ->
              exists (k : nat) (w' : W) (evs : list Event),
                (k <= S n)%nat /\
                cname_hops w fqdn k w' fqdn /\
                ((k < S n)%nat -> walk_stops w' fqdn) /\
                tr ++ [EvQuery fqdn dns.TypeCNAME recursiveNameservers true]
                  = tr ++ evs /\
                count is_advance evs = k /\
                count is_query evs = (if (k <? S n)%nat then S k else k) /\
                Forall walk_written evs /\
                (evs = [] \/
                 exists rest : list Event,
                   evs = EvQuery fqdn dns.TypeCNAME recursiveNameservers true
                           :: rest)).
    { intros Hs.
      exists 0%nat, w,
        [EvQuery fqdn dns.TypeCNAME recursiveNameservers true].
      split; [lia|]. split; [constructor|]. split; [auto|].
      split; [reflexivity|]. split; [reflexivity|]. split; [reflexivity|].
      split; [repeat constructor; auto|]. right. now exists []. }
    destruct (resolveCNAME fqdn w) as [[r|e] w1] eqn:Hq.
    + destruct (dns.Rcode r =? dns.RcodeSuccess)%Z eqn:Hr; cbn [negb].
      2:{ apply Hstop. unfold walk_stops. rewrite Hq. left.
          now apply Z.eqb_neq. }
      destruct (updateDomainWithCName r fqdn =? fqdn)%string eqn:Hu.
      { apply Hstop. unfold walk_stops. rewrite Hq. right.
        now apply String.eqb_eq. }
      match goal with
      | |- context [followCNAMEs n ?c (mkState w1 ?tr1)] =>
          destruct (IH c w1 tr1)
            as [k [w' [evs [Hk [Hh [Hs [Ht [Ha [Hqs [Hw Hfirst]]]]]]]]]]
      end.
      exists (S k), w',
        (EvQuery fqdn dns.TypeCNAME recursiveNameservers true
           :: EvLog "Found CNAME entry for %q: %q"
                    [fqdn; updateDomainWithCName r fqdn] :: evs).
      split; [lia|]. split.
      { econstructor; [|exact Hh]. exists r.
        repeat split; [exact Hq | now apply Z.eqb_eq | now apply String.eqb_neq]. }
      split; [intros Hlt; apply Hs; lia|].
      split; [rewrite Ht, <- !app_assoc; reflexivity|].
      change (EvQuery fqdn dns.TypeCNAME recursiveNameservers true
                :: EvLog "Found CNAME entry for %q: %q"
                         [fqdn; updateDomainWithCName r fqdn] :: evs)
        with ([EvQuery fqdn dns.TypeCNAME recursiveNameservers true;
               EvLog "Found CNAME entry for %q: %q"
                     [fqdn; updateDomainWithCName r fqdn]] ++ evs).
      rewrite !count_app, Ha, Hqs.
      split; [reflexivity|]. split.
      { change (S k <? S n)%nat with (k <? n)%nat.
        now destruct (k <? n)%nat. }
      split.
      { repeat constructor; auto. }
      right. eexists. reflexivity.
    + apply Hstop. unfold walk_stops. now rewrite Hq.
Qed.

End WalkSoundness.

(** X1.  Whatever the name servers answer, the name getChallengeFQDN
    returns is reached from the challenge name by k hops, k at most 50.
    The walk logs k advances.  When k is below 50 it has sent k + 1
    queries and the last one stopped it: the query failed, or was answered
    with a code other than success, or gave no other name.  When k is 50 it
    has sent 50 queries and the name returned was not queried. *)
Theorem getChallengeFQDN_reaches_result :
  forall (W : Type) (env : Env W) (domain : string) (s : State W),
    let fqdn := ("_acme-challenge." ++ domain ++ ".")%string in
    let r := getChallengeFQDN domain true s in
    let evs := emitted s (snd r) in
    exists (k : nat) (w' : W),
      (k <= 50)%nat /\
      cname_hops (world s) fqdn k w' (fst r) /\
      count is_advance evs = k /\
      ((k < 50)%nat ->
       walk_stops w' (fst r) /\ count is_query evs = S k) /\
      (k = 50%nat -> count is_query evs = 50%nat).
Proof.
  intros W env domain [w tr]. cbv zeta. cbn [world].
  rewrite getChallengeFQDN_follow.
  destruct (followCNAMEs_reaches
              50 ("_acme-challenge." ++ domain ++ ".") w tr)
    as [k [w' [evs [Hk [Hh [Hs [Ht [Ha [Hq _]]]]]]]]].
  rewrite (emitted_app (mkState w tr) _ evs Ht).
  exists k, w'. repeat split; auto.
  - destruct (Nat.ltb_spec k 50); [exact Hq | lia].
  - intros ->. exact Hq.
Qed.

(** X2.  The events of GetChallengeInfo are the events of its CNAME walk:
    each one is a recursive query of type CNAME to the recursive name
    servers or the log line of an advance, and the first one, if there is
    any, is the query for the challenge name. *)
Theorem GetChallengeInfo_only_cname_queries :
  forall (W : Type) (env : Env W) (domain keyAuth : string) (s : State W),
    let evs := emitted s (snd (GetChallengeInfo domain keyAuth s)) in
    Forall walk_written evs /\
    (evs = [] \/
     exists rest : list Event,
       evs = EvQuery ("_acme-challenge." ++ domain ++ ".") dns.TypeCNAME
                     recursiveNameservers true :: rest).
Proof.
  intros W env domain keyAuth [w tr]. cbv zeta.
  rewrite GetChallengeInfo_unfold. cbv zeta. cbn [snd].
  destruct (negb _).
  - rewrite getChallengeFQDN_follow.
    destruct (followCNAMEs_reaches
                50 ("_acme-challenge." ++ domain ++ ".") w tr)
      as [k [w' [evs [_ [_ [_ [Ht [_ [_ [Hw Hfirst]]]]]]]]]].
    rewrite (emitted_app (mkState w tr) _ evs Ht). split; assumption.
  - rewrite getChallengeFQDN_no_follow. cbn [snd].
    rewrite (emitted_app (mkState w tr) _ [])
      by (cbn [trace]; now rewrite app_nil_r).
    split; [constructor | now left].
Qed.

(** X3.  The error of strconv.ParseBool is dropped: when
    LEGO_DISABLE_CNAME_SUPPORT holds none of 1, t, T, true, TRUE, True - be
    it empty, a false value or no boolean at all - GetChallengeInfo follows
    CNAMEs: its EffectiveFQDN and its final state are those of the walk
    from the challenge name. *)
Theorem GetChallengeInfo_follows_unless_true :
  forall (W : Type) (env : Env W) (domain keyAuth : string) (s : State W),
    ~ In (os_Getenv "LEGO_DISABLE_CNAME_SUPPORT" (world s))
         ["1"; "t"; "T"; "true"; "TRUE"; "True"]%string ->
    EffectiveFQDN (fst (GetChallengeInfo domain keyAuth s)) =
      fst (getChallengeFQDN domain true s) /\
    snd (GetChallengeInfo domain keyAuth s) =
      snd (getChallengeFQDN domain true s).
Proof.
  intros W env domain keyAuth [w tr] Hnot. cbn [world] in Hnot.
  rewrite GetChallengeInfo_unfold. cbv zeta.
  destruct (fst (Strconv.ParseBool _)) eqn:Hok.
  - apply ParseBool_true_iff in Hok. contradiction.
  - split; reflexivity.
Qed.

Lemma GetChallengeInfo_follows_unless_true_witness :
  EffectiveFQDN
    (fst (GetChallengeInfo (env := Mock.env) "example.com" "abc"
                           Doubles.start_yes)) =
    "target.example.org."%string /\
  count is_query
        (trace (snd (GetChallengeInfo (env := Mock.env) "example.com" "abc"
                                      Doubles.start_yes))) = 3%nat.
Proof.
  destruct (GetChallengeInfo_follows_unless_true
              Mock.World Mock.env "example.com" "abc" Doubles.start_yes)
    as [Heff Hstate].
  { cbn. intros H. repeat (destruct H as [H|H]; [discriminate H|]).
    exact H. }
  rewrite Heff, Hstate. split; reflexivity.
Defined.

(** ** PreSolve and CleanUp, case by case *)

Section ProviderCalls.

Context {W : Type} {env : Env W}.

(** [PreSolve], by what its collaborators return. *)
Lemma PreSolve_run (c : Challenge W) (authz : acme.Authorization) (w : W)
      (tr : list Event) :
  PreSolve c authz (mkState w tr) =
  let domain := GetTargetedDomain authz in
  let chlng := fst (FindChallenge challenge.DNS01 authz) in
  let keyAuth :=
    fst (api.GetKeyAuthorization (core c) (acme.Token chlng)) in
  let logged :=
    tr ++ [EvLog "[%s] acme: Preparing to solve DNS-01" [domain]] in
  match snd (FindChallenge challenge.DNS01 authz) with
  | Some e => (Some e, mkState w logged)
  | None =>
      match provider c with
      | None =>
          (Some (errors_New
                   ("[" ++ domain ++ "] acme: no DNS Provider configured")),
           mkState w logged)
      | Some p =>
          match snd (api.GetKeyAuthorization (core c) (acme.Token chlng)) with
          | Some e => (Some e, mkState w logged)
          | None =>
              let called :=
                challenge.Present p (acme.Value (acme.Identifier_ authz))
                                  (acme.Token chlng) keyAuth w in
              (match fst called with
               | Some e =>
                   Some (wrapError
                           ("[" ++ domain
                                ++ "] acme: error presenting token: "
                                ++ Error e) e)
               | None => None
               end,
               mkState (snd called)
                       (logged
                          ++ [EvPresent (acme.Value (acme.Identifier_ authz))
                                        (acme.Token chlng) keyAuth]))
          end
      end
  end.
Proof.
  unfold PreSolve, log_Infof. unfold bind, emit, extern, ret.
  cbv beta iota delta [fst snd world trace].
  destruct (FindChallenge challenge.DNS01 authz) as [chlng [e|]];
    [reflexivity|].
  destruct (provider c) as [p|]; [|reflexivity].
  destruct (api.GetKeyAuthorization (core c) (acme.Token chlng))
    as [keyAuth [e|]]; [reflexivity|].
  destruct (challenge.Present p _ _ _ w) as [[e|] w1]; reflexivity.
Qed.

(** [CleanUp], by what its collaborators return. *)
Lemma CleanUp_run (c : Challenge W) (authz : acme.Authorization) (w : W)
      (tr : list Event) :
  CleanUp c authz (mkState w tr) =
  let chlng := fst (FindChallenge challenge.DNS01 authz) in
  let keyAuth :=
    fst (api.GetKeyAuthorization (core c) (acme.Token chlng)) in
  let logged :=
    tr ++ [EvLog "[%s] acme: Cleaning DNS-01 challenge"
                 [GetTargetedDomain authz]] in
  match snd (FindChallenge challenge.DNS01 authz) with
  | Some e => (Returned (Some e), mkState w logged)
  | None =>
      match snd (api.GetKeyAuthorization (core c) (acme.Token chlng)) with
      | Some e => (Returned (Some e), mkState w logged)
      | None =>
          match provider c with
          | None => (Panicked, mkState w logged)
          | Some p =>
              let called :=
                challenge.CleanUp p (acme.Value (acme.Identifier_ authz))
                                  (acme.Token chlng) keyAuth w in
              (Returned (fst called),
               mkState (snd called)
                       (logged
                          ++ [EvCleanUp (acme.Value (acme.Identifier_ authz))
                                        (acme.Token chlng) keyAuth]))
          end
      end
  end.
Proof.
  unfold CleanUp, log_Infof. unfold bind, emit, extern, ret.
  cbv beta iota delta [fst snd world trace].
  destruct (FindChallenge challenge.DNS01 authz) as [chlng [e|]];
    [reflexivity|].
  destruct (api.GetKeyAuthorization (core c) (acme.Token chlng))
    as [keyAuth [e|]]; [reflexivity|].
  destruct (provider c) as [p|]; [|reflexivity].
  destruct (challenge.CleanUp p _ _ _ w) as [err w1]; reflexivity.
Qed.

Lemma emitted_mkState (w w' : W) (tr evs : list Event) :
  emitted (mkState w tr) (mkState w' (tr ++ evs)) = evs.
Proof. now apply emitted_app. Qed.

End ProviderCalls.

(** X4.  A challenge without provider, for an authorization that has a
    dns-01 challenge: PreSolve returns the error "no DNS Provider
    configured", which names the targeted domain, and does nothing but
    log; CleanUp has no such guard: it panics on the nil provider when the
    key authorization is computed, and returns the error of the key
    authorization otherwise. *)
Theorem nil_provider_PreSolve_error_CleanUp_panic :
  forall (W : Type) (env : Env W) (c : Challenge W)
         (authz : acme.Authorization) (s : State W),
    provider c = None ->
    snd (FindChallenge challenge.DNS01 authz) = None ->
    (exists e : error_value,
        fst (PreSolve c authz s) = Some e /\
        Error e = ("[" ++ GetTargetedDomain authz
                       ++ "] acme: no DNS Provider configured")%string /\
        carries_domain (GetTargetedDomain authz) e = true /\
        world (snd (PreSolve c authz s)) = world s /\
        count is_action (emitted s (snd (PreSolve c authz s))) = 0%nat) /\
    fst (CleanUp c authz s) =
      match snd (api.GetKeyAuthorization
                   (core c)
                   (acme.Token (fst (FindChallenge challenge.DNS01 authz))))
      with
      | Some e => Returned (Some e)
      | None => Panicked
      end.
Proof.
  intros W env c authz [w tr] Hp Hfind. split.
  - rewrite PreSolve_run. cbv zeta. rewrite Hfind, Hp.
    eexists. split; [reflexivity|]. cbn [Error fst snd world].
    rewrite emitted_mkState. repeat split.
    unfold carries_domain. cbn [Error]. apply contains_bracketed.
  - rewrite CleanUp_run. cbv zeta. rewrite Hfind, Hp.
    now destruct (snd (api.GetKeyAuthorization _ _)).
Qed.

Lemma nil_provider_PreSolve_error_CleanUp_panic_witness :
  let c := Mock.mkChallenge None Mock.never in
  let authz := Mock.authz "example.com" in
  (exists e : error_value,
      fst (PreSolve (env := Mock.env) c authz Mock.start) = Some e /\
      Error e = "[example.com] acme: no DNS Provider configured"%string /\
      carries_domain "example.com" e = true) /\
  fst (CleanUp (env := Mock.env) c authz Mock.start) = Panicked.
Proof.
  intros c authz.
  destruct (nil_provider_PreSolve_error_CleanUp_panic
              Mock.World Mock.env c authz Mock.start eq_refl eq_refl)
    as [[e [He [Hmsg [Hdom _]]]] Hclean].
  split; [|exact Hclean].
  exists e. repeat split; assumption.
Defined.

(** X5.  PreSolve does not check the propagation and does nothing with the
    ACME server or the DNS: besides its log line it acts at most once, by a
    call of Provider.Present with the value of the identifier (not the
    targeted domain), the token of the dns-01 challenge and its key
    authorization; when it returns nil it has made this call. *)
Theorem PreSolve_only_presents :
  forall (W : Type) (env : Env W) (c : Challenge W)
         (authz : acme.Authorization) (s : State W),
    let evs := emitted s (snd (PreSolve c authz s)) in
    let chlng := fst (FindChallenge challenge.DNS01 authz) in
    let present :=
      EvPresent (acme.Value (acme.Identifier_ authz)) (acme.Token chlng)
                (fst (api.GetKeyAuthorization (core c) (acme.Token chlng))) in
    (filter is_action evs = [] \/ filter is_action evs = [present]) /\
    (fst (PreSolve c authz s) = None -> filter is_action evs = [present]).
Proof.
  intros W env c authz [w tr]. cbv zeta.
  rewrite PreSolve_run. cbv zeta.
  destruct (snd (FindChallenge challenge.DNS01 authz)) as [e|];
    [cbn [fst snd]; rewrite emitted_mkState; split;
     [now left | discriminate]|].
  destruct (provider c) as [p|];
    [|cbn [fst snd]; rewrite emitted_mkState; split;
      [now left | discriminate]].
  destruct (snd (api.GetKeyAuthorization _ _)) as [e|];
    [cbn [fst snd]; rewrite emitted_mkState; split;
     [now left | discriminate]|].
  cbn [fst snd]. rewrite <- app_assoc, emitted_mkState.
  split; [right|intros _]; reflexivity.
Qed.

(** X6.  PreSolve returns nil exactly when the authorization has a dns-01
    challenge, a provider is configured, the key authorization is computed
    and Provider.Present returns nil. *)
Theorem PreSolve_nil_iff :
  forall (W : Type) (env : Env W) (c : Challenge W)
         (authz : acme.Authorization) (s : State W),
    let chlng := fst (FindChallenge challenge.DNS01 authz) in
    let keyAuth :=
      fst (api.GetKeyAuthorization (core c) (acme.Token chlng)) in
    fst (PreSolve c authz s) = None <->
    snd (FindChallenge challenge.DNS01 authz) = None /\
    snd (api.GetKeyAuthorization (core c) (acme.Token chlng)) = None /\
    exists p : challenge.Provider W,
      provider c = Some p /\
      fst (challenge.Present p (acme.Value (acme.Identifier_ authz))
                             (acme.Token chlng) keyAuth (world s)) = None.
Proof.
  intros W env c authz [w tr]. cbv zeta. cbn [world].
  rewrite PreSolve_run. cbv zeta.
  destruct (snd (FindChallenge challenge.DNS01 authz)) as [e|].
  { split; [discriminate | intros [H _]; discriminate H]. }
  destruct (provider c) as [p|].
  2:{ split; [discriminate | intros [_ [_ [p [H _]]]]; discriminate H]. }
  destruct (snd (api.GetKeyAuthorization _ _)) as [e|].
  { split; [discriminate | intros [_ [H _]]; discriminate H]. }
  cbn [fst]. split.
  - intros H. repeat split. exists p. split; [reflexivity|].
    now destruct (fst (challenge.Present p _ _ _ w)).
  - intros [_ [_ [p' [Hp' Hnil]]]]. injection Hp' as <-. now rewrite Hnil.
Qed.

(** ** Solve, case by case *)

Section SolveCases.

Context {W : Type} {env : Env W}.

(** [Solve] leaves at once when the challenge or its key authorization is
    missing. *)
Lemma Solve_poll_early (ticks : nat) (c : Challenge W)
      (authz : acme.Authorization) (w : W) (tr : list Event)
      (e : error_value) :
  match snd (FindChallenge challenge.DNS01 authz) with
  | Some e' => e' = e
  | None =>
      snd (api.GetKeyAuthorization
             (core c)
             (acme.Token (fst (FindChallenge challenge.DNS01 authz))))
        = Some e
  end ->
  Solve_poll ticks c authz (mkState w tr) =
  (Early e (fst (FindChallenge challenge.DNS01 authz)),
   mkState w (tr ++ [EvLog "[%s] acme: Trying to solve DNS-01"
                           [GetTargetedDomain authz]])).
Proof.
  unfold Solve_poll, log_Infof. unfold bind, emit, extern, ret.
  cbv beta iota delta [fst snd world trace].
  destruct (FindChallenge challenge.DNS01 authz) as [chlng [e'|]].
  - now intros ->.
  - destruct (api.GetKeyAuthorization (core c) (acme.Token chlng))
      as [keyAuth [e'|]]; [|discriminate].
    intros H. injection H as ->. reflexivity.
Qed.

Lemma Solve_early (ticks : nat) (c : Challenge W)
      (authz : acme.Authorization) (w : W) (tr : list Event)
      (e : error_value) :
  match snd (FindChallenge challenge.DNS01 authz) with
  | Some e' => e' = e
  | None =>
      snd (api.GetKeyAuthorization
             (core c)
             (acme.Token (fst (FindChallenge challenge.DNS01 authz))))
        = Some e
  end ->
  Solve ticks c authz (mkState w tr) =
  (Returned (Some e),
   mkState w (tr ++ [EvLog "[%s] acme: Trying to solve DNS-01"
                           [GetTargetedDomain authz]])).
Proof.
  intros H. rewrite Solve_run. unfold Solve_frame, bind, ret.
  now rewrite (Solve_poll_early ticks c authz w tr e H).
Qed.

End SolveCases.

(** X7.  When the authorization has no dns-01 challenge, PreSolve, Solve
    and CleanUp each return the error of FindChallenge as it is, and do
    nothing but log: no call of the provider, no query, no sleep, no
    check, no validation, and the world is as before. *)
Theorem challenge_not_found_returned :
  forall (W : Type) (env : Env W) (ticks : nat) (c : Challenge W)
         (authz : acme.Authorization) (s : State W) (e : error_value),
    snd (FindChallenge challenge.DNS01 authz) = Some e ->
    (fst (PreSolve c authz s) = Some e /\
     world (snd (PreSolve c authz s)) = world s /\
     count is_action (emitted s (snd (PreSolve c authz s))) = 0%nat) /\
    (fst (Solve ticks c authz s) = Returned (Some e) /\
     world (snd (Solve ticks c authz s)) = world s /\
     count is_action (emitted s (snd (Solve ticks c authz s))) = 0%nat) /\
    (fst (CleanUp c authz s) = Returned (Some e) /\
     world (snd (CleanUp c authz s)) = world s /\
     count is_action (emitted s (snd (CleanUp c authz s))) = 0%nat).
Proof.
  intros W env ticks c authz [w tr] e Hfind. split; [|split].
  - rewrite PreSolve_run. cbv zeta. rewrite Hfind.
    cbn [fst snd world]. rewrite emitted_mkState. repeat split.
  - rewrite (Solve_early ticks c authz w tr e) by now rewrite Hfind.
    cbn [fst snd world]. rewrite emitted_mkState. repeat split.
  - rewrite CleanUp_run. cbv zeta. rewrite Hfind.
    cbn [fst snd world]. rewrite emitted_mkState. repeat split.
Qed.

Lemma challenge_not_found_returned_witness :
  let c := Mock.mkChallenge (Some Mock.plain_provider) Mock.never in
  let authz := Doubles.authz_http "example.com" in
  let e :=
    errors_New "[example.com] acme: unable to find challenge dns-01" in
  fst (PreSolve (env := Mock.env) c authz Mock.start) = Some e /\
  fst (Solve (env := Mock.env) 10 c authz Mock.start) = Returned (Some e) /\
  fst (CleanUp (env := Mock.env) c authz Mock.start) = Returned (Some e).
Proof.
  intros c authz e.
  destruct (challenge_not_found_returned
              Mock.World Mock.env 10 c authz Mock.start e eq_refl)
    as [[Hpre _] [[Hsolve _] [Hclean _]]].
  repeat split; assumption.
Defined.

(** X8.  When the dns-01 challenge is found and its key authorization
    cannot be computed, Solve and CleanUp return the error of
    GetKeyAuthorization as it is, whatever the provider, and PreSolve does
    so when a provider is configured; none of them does anything but log.
    The provider is not called with a key authorization that could not be
    computed. *)
Theorem key_authorization_error_returned :
  forall (W : Type) (env : Env W) (ticks : nat) (c : Challenge W)
         (authz : acme.Authorization) (s : State W) (e : error_value),
    snd (FindChallenge challenge.DNS01 authz) = None ->
    snd (api.GetKeyAuthorization
           (core c)
           (acme.Token (fst (FindChallenge challenge.DNS01 authz))))
      = Some e ->
    (provider c <> None ->
     fst (PreSolve c authz s) = Some e /\
     count is_action (emitted s (snd (PreSolve c authz s))) = 0%nat) /\
    (fst (Solve ticks c authz s) = Returned (Some e) /\
     count is_action (emitted s (snd (Solve ticks c authz s))) = 0%nat) /\
    (fst (CleanUp c authz s) = Returned (Some e) /\
     count is_action (emitted s (snd (CleanUp c authz s))) = 0%nat).
Proof.
  intros W env ticks c authz [w tr] e Hfind Hkey. split; [|split].
  - intros Hp. rewrite PreSolve_run. cbv zeta. rewrite Hfind, Hkey.
    destruct (provider c) as [p|]; [|now elim Hp].
    cbn [fst snd]. rewrite emitted_mkState. repeat split.
  - rewrite (Solve_early ticks c authz w tr e) by now rewrite Hfind.
    cbn [fst snd]. rewrite emitted_mkState. repeat split.
  - rewrite CleanUp_run. cbv zeta. rewrite Hfind, Hkey.
    cbn [fst snd]. rewrite emitted_mkState. repeat split.
Qed.

Lemma key_authorization_error_returned_witness :
  let c :=
    Doubles.with_core Doubles.broken_core
      (Mock.mkChallenge (Some Mock.plain_provider) Mock.never) in
  let authz := Mock.authz "example.com" in
  let e := errors_New "no account key" in
  fst (PreSolve (env := Mock.env) c authz Mock.start) = Some e /\
  fst (Solve (env := Mock.env) 10 c authz Mock.start) = Returned (Some e) /\
  fst (CleanUp (env := Mock.env) c authz Mock.start) = Returned (Some e).
Proof.
  intros c authz e.
  destruct (key_authorization_error_returned
              Mock.World Mock.env 10 c authz Mock.start e eq_refl eq_refl)
    as [Hpre [[Hsolve _] [Hclean _]]].
  split; [apply Hpre; discriminate|]. split; assumption.
Defined.

(** ** The events of Solve *)

Section SolveShape.

Context {W : Type} {env : Env W}.

Lemma GetChallengeInfo_walk_written (domain keyAuth : string) (s : State W) :
  exists evs : list Event,
    trace (snd (GetChallengeInfo domain keyAuth s)) = trace s ++ evs /\
    Forall walk_written evs.
Proof.
  destruct s as [w tr]. rewrite GetChallengeInfo_unfold. cbv zeta.
  cbn [snd]. destruct (negb _).
  - rewrite getChallengeFQDN_follow.
    destruct (followCNAMEs_reaches
                50 ("_acme-challenge." ++ domain ++ ".") w tr)
      as [k [w' [evs [_ [_ [_ [Ht [_ [_ [Hw _]]]]]]]]]].
    exists evs. split; assumption.
  - rewrite getChallengeFQDN_no_follow. exists []. cbn.
    rewrite app_nil_r. split; [reflexivity | constructor].
Qed.

Lemma waiting_log_written (domain : string) (info : ChallengeInfo)
      (interval : Duration) (r : bool * error) :
  Forall (poll_written domain info interval) (waiting_log domain r).
Proof.
  unfold waiting_log. destruct (negb _ || _); [|constructor].
  constructor; [|constructor]. right. right. reflexivity.
Qed.

(** The polling loop only checks the record of [info], logs and sleeps the
    interval. *)
Lemma poll_written_trace (c : Challenge W) (domain : string)
      (info : ChallengeInfo) (label : string) (deadline : Z)
      (interval : Duration) (ticks : nat) :
  forall s : State W,
  exists evs : list Event,
    trace (snd (wait.poll ticks label deadline interval
                          (propagation_check c domain info) s)) =
      trace s ++ evs /\
    Forall (poll_written domain info interval) evs.
Proof.
  induction ticks as [|ticks IH]; intros [w tr].
  - exists []. cbn. rewrite app_nil_r. split; [reflexivity | constructor].
  - rewrite poll_S, propagation_check_run.
    destruct (call _ _ _ _ _) as [r w1].
    pose proof (waiting_log_written domain info interval r) as Hlog.
    assert (Hcheck : poll_written domain info interval
                       (EvPreCheck domain (EffectiveFQDN info) (Value info)))
      by (right; left; reflexivity).
    assert (Hdone :
              exists evs : list Event,
                tr ++ EvPreCheck domain (EffectiveFQDN info) (Value info)
                   :: waiting_log domain r = tr ++ evs /\
                Forall (poll_written domain info interval) evs).
    { eexists. split; [reflexivity|]. now constructor. }
    destruct (fst r); [exact Hdone|]. cbn [world trace].
    destruct (time_Now w1 <? deadline)%Z; [|exact Hdone].
    match goal with
    | |- context [wait.poll ticks _ _ _ _ ?s1] =>
        destruct (IH s1) as [evs [Ht Hall]]
    end.
    rewrite Ht. cbn [trace].
    exists (EvPreCheck domain (EffectiveFQDN info) (Value info)
              :: waiting_log domain r ++ EvSleep interval :: evs).
    split; [rewrite <- !app_assoc; reflexivity|].
    constructor; [exact Hcheck|]. apply Forall_app. split; [exact Hlog|].
    constructor; [now left | exact Hall].
Qed.

(** [Solve] up to the end of the wait, when the challenge and its key
    authorization are there: the log line, the events of [GetChallengeInfo],
    the second log line, the sleep, and the events of the polling loop. *)
Lemma Solve_poll_shape (ticks : nat) (c : Challenge W)
      (authz : acme.Authorization) (w : W) (tr : list Event) :
  snd (FindChallenge challenge.DNS01 authz) = None ->
  snd (api.GetKeyAuthorization
         (core c) (acme.Token (fst (FindChallenge challenge.DNS01 authz))))
    = None ->
  let domain := GetTargetedDomain authz in
  let chlng := fst (FindChallenge challenge.DNS01 authz) in
  let keyAuth := fst (api.GetKeyAuthorization (core c) (acme.Token chlng)) in
  let started :=
    mkState w (tr ++ [EvLog "[%s] acme: Trying to solve DNS-01" [domain]]) in
  let info :=
    fst (GetChallengeInfo (acme.Value (acme.Identifier_ authz)) keyAuth
                          started) in
  let interval := snd (propagation_timing c) in
  exists (walk polling : list Event) (r : outcome),
    Forall walk_written walk /\
    Forall (poll_written domain info interval) polling /\
    fst (Solve_poll ticks c authz (mkState w tr)) =
      Polled domain chlng keyAuth r /\
    trace (snd (Solve_poll ticks c authz (mkState w tr))) =
      trace started ++ walk
        ++ [EvLog "[%s] acme: Checking DNS record propagation using %+v"
                  [domain; fmt_strings recursiveNameservers];
            EvSleep interval]
        ++ polling.
Proof.
  intros Hfind Hkey. cbv zeta.
  unfold Solve_poll, wait.For, Now, Sleep, log_Infof.
  unfold bind, emit, extern, ret. cbv beta. cbn [world trace].
  destruct (FindChallenge challenge.DNS01 authz) as [chlng err].
  cbn [fst snd] in *. subst err.
  destruct (api.GetKeyAuthorization _ _) as [keyAuth err].
  cbn [fst snd] in *. subst err.
  match goal with
  | |- context [GetChallengeInfo ?d ?k ?s0] =>
      destruct (GetChallengeInfo_walk_written d k s0) as [walk [Ht1 Hw1]];
      destruct (GetChallengeInfo d k s0) as [info [w2 tr2]]
  end.
  cbn [fst snd trace] in *. subst tr2.
  destruct (propagation_timing c) as [timeout interval].
  cbv beta iota delta [fst snd world trace].
  match goal with
  | |- context [wait.poll ticks ?l ?d ?i ?f ?s1] =>
      destruct (poll_written_trace
                  c (GetTargetedDomain authz) info l d i ticks s1)
        as [polling [Ht2 Hall]];
      destruct (wait.poll ticks l d i f s1) as [r [w3 tr3]]
  end.
  cbn [snd trace] in Ht2. subst tr3.
  exists walk, polling, r. repeat split; try assumption.
  rewrite <- !app_assoc. reflexivity.
Qed.

(** The events of [Solve], when the challenge and its key authorization
    are there: those of [Solve_poll], and the call of the validator when
    the wait has returned nil. *)
Lemma Solve_shape (ticks : nat) (c : Challenge W)
      (authz : acme.Authorization) (w : W) (tr : list Event) :
  snd (FindChallenge challenge.DNS01 authz) = None ->
  snd (api.GetKeyAuthorization
         (core c) (acme.Token (fst (FindChallenge challenge.DNS01 authz))))
    = None ->
  let domain := GetTargetedDomain authz in
  let chlng := fst (FindChallenge challenge.DNS01 authz) in
  let keyAuth := fst (api.GetKeyAuthorization (core c) (acme.Token chlng)) in
  let started :=
    mkState w (tr ++ [EvLog "[%s] acme: Trying to solve DNS-01" [domain]]) in
  let info :=
    fst (GetChallengeInfo (acme.Value (acme.Identifier_ authz)) keyAuth
                          started) in
  let interval := snd (propagation_timing c) in
  exists (walk polling validation : list Event),
    Forall walk_written walk /\
    Forall (poll_written domain info interval) polling /\
    (validation = [] \/
     validation =
       [EvValidate domain (acme.set_KeyAuthorization chlng keyAuth)]) /\
    (fst (Solve ticks c authz (mkState w tr)) = Returned None ->
     validation <> []) /\
    emitted (mkState w tr) (snd (Solve ticks c authz (mkState w tr))) =
      EvLog "[%s] acme: Trying to solve DNS-01" [domain] :: walk
        ++ [EvLog "[%s] acme: Checking DNS record propagation using %+v"
                  [domain; fmt_strings recursiveNameservers];
            EvSleep interval]
        ++ polling ++ validation.
Proof.
  intros Hfind Hkey. cbv zeta.
  destruct (Solve_poll_shape ticks c authz w tr Hfind Hkey)
    as [walk [polling [r [Hw [Hp [Hres Ht]]]]]].
  rewrite Solve_run. unfold Solve_frame, bind, ret, emit, extern.
  destruct (Solve_poll ticks c authz (mkState w tr)) as [p [w1 tr1]].
  cbn [fst snd trace] in Hres, Ht. subst p tr1.
  exists walk, polling.
  destruct r as [[e|] | |]; cbn [fst snd world trace].
  - exists []. repeat split; auto; [discriminate|].
    apply emitted_app. cbn [trace]. rewrite !app_nil_r, <- !app_assoc.
    reflexivity.
  - destruct (validate c _ _ _ _) as [err w2]. cbn [fst snd].
    eexists [_]. repeat split; auto; [discriminate|].
    apply emitted_app. cbn [trace]. rewrite <- !app_assoc. reflexivity.
  - exists []. repeat split; auto; [discriminate|].
    apply emitted_app. cbn [trace]. rewrite !app_nil_r, <- !app_assoc.
    reflexivity.
  - exists []. repeat split; auto; [discriminate|].
    apply emitted_app. cbn [trace]. rewrite !app_nil_r, <- !app_assoc.
    reflexivity.
Qed.

End SolveShape.

Lemma count_Forall_none (P : Event -> Prop) (p : Event -> bool)
      (evs : list Event) :
  (forall e : Event, P e -> p e = false) ->
  Forall P evs -> count p evs = 0%nat.
Proof.
  intros Hp Hall. apply count_none.
  induction Hall as [|e evs He _ IH]; [reflexivity|].
  cbn [forallb]. now rewrite (Hp e He), IH.
Qed.

Lemma count_cons (p : Event -> bool) (e : Event) (evs : list Event) :
  count p (e :: evs) = ((if p e then 1 else 0) + count p evs)%nat.
Proof. unfold count. cbn [filter]. now destruct (p e). Qed.

Section SolveEvents.

Context {W : Type} {env : Env W}.

(** A run of [Solve] either leaves at once with an error, having only
    logged, or goes through the events of [Solve_shape]. *)
Lemma Solve_cases (ticks : nat) (c : Challenge W)
      (authz : acme.Authorization) (w : W) (tr : list Event) :
  let domain := GetTargetedDomain authz in
  let chlng := fst (FindChallenge challenge.DNS01 authz) in
  let keyAuth := fst (api.GetKeyAuthorization (core c) (acme.Token chlng)) in
  let started :=
    mkState w (tr ++ [EvLog "[%s] acme: Trying to solve DNS-01" [domain]]) in
  let info :=
    fst (GetChallengeInfo (acme.Value (acme.Identifier_ authz)) keyAuth
                          started) in
  let interval := snd (propagation_timing c) in
  let run := Solve ticks c authz (mkState w tr) in
  ((exists e : error_value, fst run = Returned (Some e)) /\
   emitted (mkState w tr) (snd run) =
     [EvLog "[%s] acme: Trying to solve DNS-01" [domain]]) \/
  (exists (walk polling validation : list Event),
      Forall walk_written walk /\
      Forall (poll_written domain info interval) polling /\
      (validation = [] \/
       validation =
         [EvValidate domain (acme.set_KeyAuthorization chlng keyAuth)]) /\
      (fst run = Returned None -> validation <> []) /\
      emitted (mkState w tr) (snd run) =
        EvLog "[%s] acme: Trying to solve DNS-01" [domain] :: walk
          ++ [EvLog "[%s] acme: Checking DNS record propagation using %+v"
                    [domain; fmt_strings recursiveNameservers];
              EvSleep interval]
          ++ polling ++ validation).
Proof.
  cbv zeta.
  destruct (snd (FindChallenge challenge.DNS01 authz)) as [e|] eqn:Hfind.
  { left. rewrite (Solve_early ticks c authz w tr e) by now rewrite Hfind.
    cbn [fst snd]. rewrite emitted_mkState. split; [now exists e|reflexivity]. }
  destruct (snd (api.GetKeyAuthorization
                   (core c)
                   (acme.Token (fst (FindChallenge challenge.DNS01 authz)))))
    as [e|] eqn:Hkey.
  { left. rewrite (Solve_early ticks c authz w tr e) by now rewrite Hfind.
    cbn [fst snd]. rewrite emitted_mkState. split; [now exists e|reflexivity]. }
  right. exact (Solve_shape ticks c authz w tr Hfind Hkey).
Qed.

Lemma walk_written_quiet (e : Event) :
  walk_written e ->
  is_timing e = false /\ is_validate e = false /\ is_present e = false /\
  is_cleanup e = false /\ is_precheck e = false.
Proof. destruct e; cbn; intros H; try contradiction; repeat split. Qed.

Lemma poll_written_quiet (domain : string) (info : ChallengeInfo)
      (interval : Duration) (e : Event) :
  poll_written domain info interval e ->
  is_query e = false /\ is_validate e = false /\ is_present e = false /\
  is_cleanup e = false.
Proof. intros [-> | [-> | ->]]; repeat split. Qed.

End SolveEvents.

(** X9.  When the propagation wait of Solve returns nil, Solve calls the
    validator once, with the targeted domain and the dns-01 challenge of
    the authorization to which it has attached the key authorization of
    the challenge's token, and returns what the validator returns, as it
    is. *)
Theorem Solve_success_validates :
  forall (W : Type) (env : Env W) (ticks : nat) (c : Challenge W)
         (authz : acme.Authorization) (s s1 : State W) (domain : string)
         (chlng : acme.Challenge) (keyAuth : string),
    Solve_poll ticks c authz s =
      (Polled domain chlng keyAuth (Returned None), s1) ->
    let attached := acme.set_KeyAuthorization chlng keyAuth in
    let called := validate c (core c) domain attached (world s1) in
    Solve ticks c authz s =
      (Returned (fst called),
       mkState (snd called) (trace s1 ++ [EvValidate domain attached])) /\
    domain = GetTargetedDomain authz /\
    chlng = fst (FindChallenge challenge.DNS01 authz) /\
    keyAuth =
      fst (api.GetKeyAuthorization (core c) (acme.Token chlng)) /\
    acme.KeyAuthorization attached = keyAuth /\
    acme.Token attached = acme.Token chlng.
Proof.
  intros W env ticks c authz [w tr] s1 domain chlng keyAuth Hpoll.
  cbv zeta. split.
  - rewrite Solve_run. unfold Solve_frame, bind, ret, emit, extern.
    rewrite Hpoll. cbn [world trace].
    destruct (validate c _ _ _ _) as [err w2]. reflexivity.
  - destruct (snd (FindChallenge challenge.DNS01 authz)) as [e|] eqn:Hfind.
    { rewrite (Solve_poll_early ticks c authz w tr e) in Hpoll
        by now rewrite Hfind.
      discriminate Hpoll. }
    destruct (snd (api.GetKeyAuthorization
                     (core c)
                     (acme.Token
                        (fst (FindChallenge challenge.DNS01 authz)))))
      as [e|] eqn:Hkey.
    { rewrite (Solve_poll_early ticks c authz w tr e) in Hpoll
        by now rewrite Hfind.
      discriminate Hpoll. }
    destruct (Solve_poll_shape ticks c authz w tr Hfind Hkey)
      as [_ [_ [r [_ [_ [Hres _]]]]]].
    rewrite Hpoll in Hres. cbn [fst] in Hres.
    injection Hres as Hd Hc Hk _. subst domain chlng keyAuth.
    repeat split.
Qed.

Lemma Solve_success_validates_witness :
  let c :=
    Doubles.with_rejecting_validator
      (Mock.mkChallenge (Some Mock.failing_provider)
                        (Mock.from (3 * Second))) in
  let run := Solve (env := Mock.env) 10 c (Mock.authz "example.com")
                   Mock.start in
  fst run = Returned (Some (errors_New "unauthorized")) /\
  last (trace (snd run)) (EvSleep 0) =
    EvValidate "example.com"
               {| acme.URL := "https://acme.test/chall/2";
                  acme.Type_ := "dns-01"; acme.Status := "pending";
                  acme.Token := "tok-dns";
                  acme.KeyAuthorization := "tok-dns.thumbprint" |}.
Proof.
  intros c run.
  destruct (Solve_success_validates
              Mock.World Mock.env 10 c (Mock.authz "example.com") Mock.start
              (snd (Solve_poll (env := Mock.env) 10 c
                               (Mock.authz "example.com") Mock.start))
              "example.com"
              {| acme.URL := "https://acme.test/chall/2";
                 acme.Type_ := "dns-01"; acme.Status := "pending";
                 acme.Token := "tok-dns"; acme.KeyAuthorization := "" |}
              "tok-dns.thumbprint")
    as [Hrun _]; [vm_compute; reflexivity|].
  subst run. rewrite Hrun. cbn [fst snd trace]. split; [reflexivity|].
  apply last_last.
Defined.

(** X10.  Solve calls the validator at most once, and it returns nil only
    when it has called it: it never reports success on the propagation
    check alone. *)
Theorem Solve_nil_only_after_validation :
  forall (W : Type) (env : Env W) (ticks : nat) (c : Challenge W)
         (authz : acme.Authorization) (s : State W),
    let evs := emitted s (snd (Solve ticks c authz s)) in
    (count is_validate evs <= 1)%nat /\
    (fst (Solve ticks c authz s) = Returned None ->
     count is_validate evs = 1%nat).
Proof.
  intros W env ticks c authz [w tr]. cbv zeta.
  destruct (Solve_cases ticks c authz w tr)
    as [[[e He] Hevs]
       | [walk [polling [validation [Hw [Hp [Hv [Hnil Hevs]]]]]]]];
    rewrite Hevs.
  - split; [cbn; lia|]. rewrite He. discriminate.
  - rewrite count_cons, !count_app. cbn [is_validate].
    rewrite (count_Forall_none _ is_validate walk
               (fun e H => proj1 (proj2 (walk_written_quiet e H))) Hw).
    rewrite (count_Forall_none _ is_validate polling
               (fun e H => proj1 (proj2 (poll_written_quiet _ _ _ e H))) Hp).
    destruct Hv as [-> | ->].
    + split; [cbn; lia|]. intros H. now elim (Hnil H).
    + split; [cbn; lia | reflexivity].
Qed.


(** X12.  Every propagation check of a run of Solve is for one and the
    same record: the targeted domain, the EffectiveFQDN that
    GetChallengeInfo has given for the value of the identifier right after
    the first log line, and the unpadded base64url SHA-256 of the key
    authorization of the challenge's token. *)
Theorem Solve_checks_the_derived_record :
  forall (W : Type) (env : Env W) (ticks : nat) (c : Challenge W)
         (authz : acme.Authorization) (s : State W)
         (domain fqdn value : string),
    In (EvPreCheck domain fqdn value)
       (emitted s (snd (Solve ticks c authz s))) ->
    let chlng := fst (FindChallenge challenge.DNS01 authz) in
    let keyAuth :=
      fst (api.GetKeyAuthorization (core c) (acme.Token chlng)) in
    let started :=
      mkState (world s)
              (trace s ++ [EvLog "[%s] acme: Trying to solve DNS-01"
                                 [GetTargetedDomain authz]]) in
    domain = GetTargetedDomain authz /\
    fqdn =
      EffectiveFQDN
        (fst (GetChallengeInfo (acme.Value (acme.Identifier_ authz))
                               keyAuth started)) /\
    value =
      Base64.EncodeToString (Sha256.Sum256 (bytes_of_string keyAuth)).
Proof.
  intros W env ticks c authz [w tr] domain fqdn value Hin. cbv zeta.
  cbn [world trace].
  destruct (Solve_cases ticks c authz w tr)
    as [[_ Hevs]
       | [walk [polling [validation [Hw [Hp [Hv [_ Hevs]]]]]]]];
    rewrite Hevs in Hin.
  - destruct Hin as [H|[]]. discriminate H.
  - destruct Hin as [H|Hin]; [discriminate H|].
    apply in_app_or in Hin. destruct Hin as [Hin|Hin].
    { rewrite Forall_forall in Hw. now elim (Hw _ Hin). }
    apply in_app_or in Hin. destruct Hin as [Hin|Hin].
    { destruct Hin as [H|[H|[]]]; discriminate H. }
    apply in_app_or in Hin. destruct Hin as [Hin|Hin].
    + rewrite Forall_forall in Hp.
      destruct (Hp _ Hin) as [H | [H | H]]; try discriminate H.
      injection H as -> -> ->. repeat split.
      apply GetChallengeInfo_Value.
    + destruct Hv as [-> | ->]; [contradiction|].
      destruct Hin as [H|[]]. discriminate H.
Qed.

Lemma Solve_checks_the_derived_record_witness :
  let c := Mock.mkChallenge None (Mock.from (4 * Second)) in
  let authz := Mock.authz "example.com" in
  nth_error (emitted Mock.start
                     (snd (Solve (env := Mock.env) 10 c authz Mock.start)))
            8 =
    Some (EvPreCheck "example.com" "target.example.org."
                     "wJeUC0ip9lff-ASs7hE071rY04iobSyzNcdUrVrnpkM") /\
  "wJeUC0ip9lff-ASs7hE071rY04iobSyzNcdUrVrnpkM"%string =
    Base64.EncodeToString
      (Sha256.Sum256 (bytes_of_string "tok-dns.thumbprint")).
Proof.
  intros c authz.
  assert (Hnth :
            nth_error
              (emitted Mock.start
                       (snd (Solve (env := Mock.env) 10 c authz Mock.start)))
              8 =
            Some (EvPreCheck "example.com" "target.example.org."
                             "wJeUC0ip9lff-ASs7hE071rY04iobSyzNcdUrVrnpkM"))
    by (vm_compute; reflexivity).
  split; [exact Hnth|].
  exact (proj2 (proj2 (Solve_checks_the_derived_record
                         Mock.World Mock.env 10 c authz Mock.start _ _ _
                         (nth_error_In _ _ Hnth)))).
Defined.

(** X13.  Solve never calls the provider: neither Present nor CleanUp is
    among its events.  Publishing and retracting the record is left to
    PreSolve and CleanUp. *)
Theorem Solve_never_calls_provider :
  forall (W : Type) (env : Env W) (ticks : nat) (c : Challenge W)
         (authz : acme.Authorization) (s : State W),
    count is_present (emitted s (snd (Solve ticks c authz s))) = 0%nat /\
    count is_cleanup (emitted s (snd (Solve ticks c authz s))) = 0%nat.
Proof.
  intros W env ticks c authz [w tr].
  destruct (Solve_cases ticks c authz w tr)
    as [[_ Hevs]
       | [walk [polling [validation [Hw [Hp [Hv [_ Hevs]]]]]]]];
    rewrite Hevs.
  - split; reflexivity.
  - rewrite !count_cons, !count_app.
    rewrite (count_Forall_none _ is_present walk
               (fun e H =>
                  proj1 (proj2 (proj2 (walk_written_quiet e H)))) Hw).
    rewrite (count_Forall_none _ is_cleanup walk
               (fun e H =>
                  proj1 (proj2 (proj2 (proj2 (walk_written_quiet e H)))))
               Hw).
    rewrite (count_Forall_none _ is_present polling
               (fun e H =>
                  proj1 (proj2 (proj2 (poll_written_quiet _ _ _ e H)))) Hp).
    rewrite (count_Forall_none _ is_cleanup polling
               (fun e H =>
                  proj2 (proj2 (proj2 (poll_written_quiet _ _ _ e H)))) Hp).
    destruct Hv as [-> | ->]; split; reflexivity.
Qed.

(** X14.  CleanUp retracts the record PreSolve has published: when PreSolve
    has called Provider.Present with a domain, a token and a key
    authorization, CleanUp for the same challenge and authorization, in
    any state, logs, calls Provider.CleanUp once with the same three
    arguments, and returns what the provider returns, nil or error. *)
Theorem CleanUp_retracts_presented_record :
  forall (W : Type) (env : Env W) (c : Challenge W)
         (authz : acme.Authorization) (s s' : State W)
         (domain token keyAuth : string),
    In (EvPresent domain token keyAuth)
       (emitted s (snd (PreSolve c authz s))) ->
    exists p : challenge.Provider W,
      provider c = Some p /\
      emitted s' (snd (CleanUp c authz s')) =
        [EvLog "[%s] acme: Cleaning DNS-01 challenge"
               [GetTargetedDomain authz];
         EvCleanUp domain token keyAuth] /\
      fst (CleanUp c authz s') =
        Returned (fst (challenge.CleanUp p domain token keyAuth (world s'))).
Proof.
  intros W env c authz [w tr] [w' tr'] domain token keyAuth Hin.
  rewrite PreSolve_run in Hin. cbv zeta in Hin.
  rewrite CleanUp_run. cbv zeta. cbn [world].
  destruct (snd (FindChallenge challenge.DNS01 authz)) as [e|].
  { cbn [snd] in Hin. rewrite emitted_mkState in Hin.
    destruct Hin as [H|[]]. discriminate H. }
  destruct (provider c) as [p|].
  2:{ cbn [snd] in Hin. rewrite emitted_mkState in Hin.
      destruct Hin as [H|[]]. discriminate H. }
  destruct (snd (api.GetKeyAuthorization _ _)) as [e|].
  { cbn [snd] in Hin. rewrite emitted_mkState in Hin.
    destruct Hin as [H|[]]. discriminate H. }
  cbn [snd] in Hin. rewrite <- app_assoc, emitted_mkState in Hin.
  destruct Hin as [H|[H|[]]]; [discriminate H|].
  injection H as <- <- <-.
  exists p. cbn [fst snd]. rewrite <- app_assoc, emitted_mkState.
  repeat split.
Qed.

Lemma CleanUp_retracts_presented_record_witness :
  let c := Mock.mkChallenge (Some Mock.plain_provider) Mock.never in
  let authz := Doubles.authz_wildcard "example.com" in
  emitted Mock.start_disabled
          (snd (CleanUp (env := Mock.env) c authz Mock.start_disabled)) =
    [EvLog "[%s] acme: Cleaning DNS-01 challenge" ["*.example.com"%string];
     EvCleanUp "example.com" "tok-wild" "tok-wild.thumbprint"] /\
  fst (CleanUp (env := Mock.env) c authz Mock.start_disabled) =
    Returned None.
Proof.
  intros c authz.
  destruct (CleanUp_retracts_presented_record
              Mock.World Mock.env c authz Mock.start Mock.start_disabled
              "example.com" "tok-wild" "tok-wild.thumbprint")
    as [p [Hp [Hevs Hres]]].
  { vm_compute. right. left. reflexivity. }
  split; [exact Hevs|]. rewrite Hres.
  injection Hp as <-. reflexivity.
Defined.

(** ** NewChallenge and its options *)

Section Options.

Context {W : Type} {env : Env W}.

(** The options are applied in order, each to the challenge the ones
    before it have left. *)
Lemma apply_options_app (pre post : list (ChallengeOption (W := W))) :
  forall (chlg : Challenge W) (s : State W),
    apply_options (pre ++ post) chlg s =
    apply_options post (fst (apply_options pre chlg s))
                  (snd (apply_options pre chlg s)).
Proof.
  induction pre as [|opt pre IH]; intros chlg s; [reflexivity|].
  cbn [app apply_options]. unfold bind.
  destruct (extern (opt chlg) s) as [[chlg' err] s1].
  destruct (match err with
            | Some e => log_Infof "challenge option error: %v" [Error e]
            | None => ret tt
            end s1) as [u s2].
  apply IH.
Qed.

(** One option, applied in state [(w, tr)]. *)
Lemma apply_options_cons (opt : ChallengeOption (W := W))
      (rest : list (ChallengeOption (W := W))) (chlg : Challenge W) (w : W)
      (tr : list Event) :
  apply_options (opt :: rest) chlg (mkState w tr) =
  apply_options rest (fst (fst (opt chlg w)))
    (mkState (snd (opt chlg w))
             (tr ++ match snd (fst (opt chlg w)) with
                    | Some e =>
                        [EvLog "challenge option error: %v" [Error e]]
                    | None => []
                    end)).
Proof.
  cbn [apply_options]. unfold log_Infof. unfold bind, extern, emit, ret.
  cbn [world trace].
  destruct (opt chlg w) as [[chlg' [e|]] w1]; cbn [fst snd world trace].
  - reflexivity.
  - now rewrite app_nil_r.
Qed.

(** The loop only logs, at most once per option. *)
Lemma apply_options_trace (opts : list (ChallengeOption (W := W))) :
  forall (chlg : Challenge W) (s : State W),
  exists evs : list Event,
    trace (snd (apply_options opts chlg s)) = trace s ++ evs /\
    Forall (fun e => exists msg : string,
                e = EvLog "challenge option error: %v" [msg]) evs /\
    (List.length evs <= List.length opts)%nat.
Proof.
  induction opts as [|opt opts IH]; intros chlg [w tr].
  - exists []. cbn. rewrite app_nil_r. repeat split; auto.
  - rewrite apply_options_cons.
    match goal with
    | |- context [apply_options opts ?c1 ?s1] =>
        destruct (IH c1 s1) as [evs [Ht [Hall Hlen]]]
    end.
    rewrite Ht. cbn [trace].
    destruct (snd (fst (opt chlg w))) as [e|].
    + exists (EvLog "challenge option error: %v" [Error e] :: evs).
      rewrite <- app_assoc. repeat split; [|cbn [List.length]; lia].
      constructor; [now exists (Error e) | exact Hall].
    + exists evs. rewrite app_nil_r. repeat split; [exact Hall|].
      cbn [List.length]. lia.
Qed.

End Options.

(** X15.  NewChallenge does not fail on its options and does nothing to
    the outside by itself: its only events are log lines "challenge option
    error", at most one per option; what else happens to the world is what
    the options do. *)
Theorem NewChallenge_only_logs_option_errors :
  forall (W : Type) (newPreCheck : preCheck W)
         (core : api.Core) (validate : ValidateFunc W)
         (provider : option (challenge.Provider W))
         (opts : list (ChallengeOption (W := W))) (s : State W),
    let evs :=
      emitted s (snd (NewChallenge newPreCheck core validate provider opts
                                   s)) in
    Forall (fun e => exists msg : string,
                e = EvLog "challenge option error: %v" [msg]) evs /\
    (List.length evs <= List.length opts)%nat.
Proof.
  intros W newPreCheck core validate provider opts s. cbv zeta.
  unfold NewChallenge.
  match goal with
  | |- context [apply_options opts ?c0 s] =>
      destruct (apply_options_trace opts c0 s) as [evs [Ht [Hall Hlen]]]
  end.
  rewrite (emitted_app _ _ evs Ht). split; assumption.
Qed.

(** X16.  A conditional option whose condition is false counts for
    nothing, wherever it stands among the options: NewChallenge gives the
    same challenge and the same state as without it, and the option is not
    run.  With a true condition it is the option itself. *)
Theorem CondOption_false_is_absent :
  forall (W : Type) (newPreCheck : preCheck W)
         (core : api.Core) (validate : ValidateFunc W)
         (provider : option (challenge.Provider W))
         (pre post : list (ChallengeOption (W := W)))
         (opt : ChallengeOption (W := W)) (s : State W),
    NewChallenge newPreCheck core validate provider
                 (pre ++ CondOption false opt :: post) s =
      NewChallenge newPreCheck core validate provider (pre ++ post) s /\
    NewChallenge newPreCheck core validate provider
                 (pre ++ CondOption true opt :: post) s =
      NewChallenge newPreCheck core validate provider
                   (pre ++ opt :: post) s.
Proof.
  intros W newPreCheck core validate provider pre post opt s.
  split; [|reflexivity].
  unfold NewChallenge. rewrite !apply_options_app.
  destruct (apply_options pre _ s) as [chlg [w tr]]. cbn [fst snd].
  rewrite apply_options_cons. cbn [CondOption negb fst snd].
  now rewrite app_nil_r.
Qed.

(** X17.  An option that fails does not stop the construction: its error
    is logged, and the options after it are applied to the challenge it
    has left, in the world it has left. *)
Theorem NewChallenge_goes_on_after_option_error :
  forall (W : Type) (newPreCheck : preCheck W)
         (core : api.Core) (validate : ValidateFunc W)
         (provider : option (challenge.Provider W))
         (pre post : list (ChallengeOption (W := W)))
         (opt : ChallengeOption (W := W)) (s : State W)
         (chlg : Challenge W) (e : error_value) (w : W),
    let before := NewChallenge newPreCheck core validate provider pre s in
    opt (fst before) (world (snd before)) = (chlg, Some e, w) ->
    NewChallenge newPreCheck core validate provider (pre ++ opt :: post) s =
    apply_options post chlg
      (mkState w (trace (snd before)
                    ++ [EvLog "challenge option error: %v" [Error e]])).
Proof.
  intros W newPreCheck core validate provider pre post opt s chlg e w.
  cbv zeta. unfold NewChallenge. rewrite apply_options_app.
  destruct (apply_options pre _ s) as [chlg0 [w0 tr0]].
  cbn [fst snd world trace]. intros Hopt.
  rewrite apply_options_cons, Hopt. reflexivity.
Qed.

Lemma NewChallenge_goes_on_after_option_error_witness :
  let run :=
    NewChallenge Mock.never Mock.acme_core
                 (fun _ _ _ w => (None, w)) (Some Mock.plain_provider)
                 [Doubles.bad_option; Doubles.set_timeout (30 * Second)]
                 Mock.start in
  dnsTimeout (fst run) = 30 * Second /\
  trace (snd run) = [EvLog "challenge option error: %v" ["bad option"%string]].
Proof.
  intros run.
  pose proof (NewChallenge_goes_on_after_option_error
                Mock.World Mock.never Mock.acme_core
                (fun _ _ _ w => (None, w)) (Some Mock.plain_provider)
                [] [Doubles.set_timeout (30 * Second)] Doubles.bad_option
                Mock.start _ (errors_New "bad option") _ eq_refl) as Hrun.
  subst run. cbn [app] in Hrun. rewrite Hrun. split; reflexivity.
Defined.

(** X18.  CleanUp does nothing with the DNS or the ACME server: besides
    its log line it acts at most once, by a call of Provider.CleanUp with
    the value of the identifier, the token of the dns-01 challenge and its
    key authorization.  It returns nil exactly when the challenge is found,
    its key authorization is computed, a provider is configured and
    Provider.CleanUp returns nil, and then it has made this call. *)
Theorem CleanUp_only_cleans :
  forall (W : Type) (env : Env W) (c : Challenge W)
         (authz : acme.Authorization) (s : State W),
    let evs := emitted s (snd (CleanUp c authz s)) in
    let chlng := fst (FindChallenge challenge.DNS01 authz) in
    let keyAuth :=
      fst (api.GetKeyAuthorization (core c) (acme.Token chlng)) in
    let cleanup :=
      EvCleanUp (acme.Value (acme.Identifier_ authz)) (acme.Token chlng)
                keyAuth in
    (filter is_action evs = [] \/ filter is_action evs = [cleanup]) /\
    (fst (CleanUp c authz s) = Returned None <->
     snd (FindChallenge challenge.DNS01 authz) = None /\
     snd (api.GetKeyAuthorization (core c) (acme.Token chlng)) = None /\
     filter is_action evs = [cleanup] /\
     exists p : challenge.Provider W,
       provider c = Some p /\
       fst (challenge.CleanUp p (acme.Value (acme.Identifier_ authz))
                              (acme.Token chlng) keyAuth (world s)) = None).
Proof.
  intros W env c authz [w tr]. cbv zeta. cbn [world].
  rewrite CleanUp_run. cbv zeta.
  destruct (snd (FindChallenge challenge.DNS01 authz)) as [e|].
  { cbn [fst snd]. rewrite emitted_mkState. split; [now left|].
    split; [discriminate | intros [H _]; discriminate H]. }
  destruct (snd (api.GetKeyAuthorization _ _)) as [e|].
  { cbn [fst snd]. rewrite emitted_mkState. split; [now left|].
    split; [discriminate | intros [_ [H _]]; discriminate H]. }
  destruct (provider c) as [p|].
  2:{ cbn [fst snd]. rewrite emitted_mkState. split; [now left|].
      split; [discriminate | intros [_ [_ [_ [p [H _]]]]]; discriminate H]. }
  cbn [fst snd]. rewrite <- app_assoc, emitted_mkState.
  split; [now right|]. split.
  - intros H. injection H as H. repeat split. exists p. now split.
  - intros [_ [_ [_ [p' [Hp' Hnil]]]]]. injection Hp' as <-.
    now rewrite Hnil.
Qed.
